(** * flavio/parameters.py: parameter data files and PDG particle data

    A shallow embedding of [src/flavio/parameters.py].  Python floats are
    IEEE binary64 numbers, modelled by Rocq's primitive floats, and a
    float power goes through the C library, which is a parameter; the
    process-wide registry of [Parameter] instances and the
    [ParameterConstraints] object handed to the readers form the state that
    is threaded through a small state-and-exception monad. *)

From Stdlib Require Import Floats.PrimFloat.
From Stdlib Require Import ZArith Lia Ascii.
From stdpp Require Import base option list gmap strings.

#[local] Set Warnings "-inexact-float".
#[local] Open Scope string_scope.

(** ** Python exceptions and float operations *)

Inductive exn : Type :=
| KeyError (key : string)
| IndexError
| TypeError
| ValueError (msg : string)
| ZeroDivisionError
| OverflowError
| AssertionError (msg : string)
| LinAlgError.

(** A pure computation that may raise. *)
Inductive result (A : Type) : Type :=
| Return (a : A)
| Raise (e : exn).
Arguments Return {A} a.
Arguments Raise {A} e.

Definition rbind {A B} (r : result A) (k : A -> result B) : result B :=
  match r with
  | Return a => k a
  | Raise e => Raise e
  end.

Declare Scope py_scope.
Delimit Scope py_scope with py.
Notation "x <~ r ;; k" := (rbind r (fun x => k))
  (at level 100, r at next level, right associativity) : py_scope.

(** The C library underneath the interpreter: [pow] of [math.h], which
    computes a float power outside the special cases that the
    interpreter decides itself.  Its result is close to the exact power
    but not specified to the last bit, so it is kept as a parameter. *)
Class Libm : Type := { libm_pow : float -> float -> float }.

Module PyFloat.

(** [x == 0], which is how [0] is found in a set of floats: [0.0] and
    [-0.0] are both equal to the integer [0] (and hash alike), a NaN is
    not. *)
Definition is_zero (x : float) : bool := PrimFloat.eqb x 0%float.

(** [a / b]: float division raises on a zero divisor. *)
Definition div (a b : float) : result float :=
  if is_zero b then Raise ZeroDivisionError else Return (a / b)%float.

(** The value of [x**2], as the interpreter computes a float power for
    the exponent [2.0]: a NaN is returned as it is, an infinity gives its
    absolute value, a zero gives [0.0], a negative base is replaced by its
    opposite (the exponent is even, so the result is not negated), a base
    then equal to one gives [1.0], and the C library computes the rest. *)
Definition pow2_value {libc : Libm} (x : float) : float :=
  if PrimFloat.is_nan x then x
  else if PrimFloat.is_infinity x then PrimFloat.abs x
  else if is_zero x then 0%float
  else
    let iv := if PrimFloat.ltb x 0%float then (- x)%float else x in
    if PrimFloat.eqb iv 1%float then 1%float else libm_pow iv 2%float.

(** [x**2]: an infinite result for a finite base is a range error of the
    C library, raised as [OverflowError]; a result that underflows to
    zero is returned.  (No special case of [pow2_value] gives an infinite
    value for a finite base.) *)
Definition pow2 {libc : Libm} (x : float) : result float :=
  let ix := pow2_value x in
  if PrimFloat.is_finite x && PrimFloat.is_infinity ix
  then Raise OverflowError
  else Return ix.

(** [math.sqrt]: a negative argument is a domain error. *)
Definition sqrt (x : float) : result float :=
  if PrimFloat.ltb x 0%float then Raise (ValueError "math domain error")
  else Return (PrimFloat.sqrt x).

End PyFloat.

(** ** Particle records and the derived quantities *)

(** Modelled from the spec: the record of the external particle data source
    ([particle.Particle], not part of this repository).  Section 6 lists its
    fields; only the width fields can be absent ([None]). *)
Record Particle : Type := {
  pdgid : Z;
  name : string;
  latex_name : string;
  mass : float;
  mass_upper : float;
  mass_lower : float;
  width : option float;
  width_upper : option float;
  width_lower : option float;
}.

(** The tuple [name, tex, description, central, right, left]. *)
Record Quantity : Type := {
  q_name : string;
  q_tex : string;
  q_description : string;
  q_central : float;
  q_right : float;
  q_left : float;
}.

Definition PDG_PARTICLES : list (string * Z) :=
  [ ("Bs", 531); ("Bc", 541); ("Bs*", 533); ("B*+", 523); ("B*0", 513);
    ("B+", 521); ("B0", 511); ("Ds", 431); ("Ds*", 433); ("D+", 411);
    ("D0", 421); ("h", 25); ("J/psi", 443); ("KL", 130); ("KS", 310);
    ("K*+", 323); ("K*0", 313); ("K+", 321); ("K0", 311); ("Lambda", 3122);
    ("Lambdab", 5122); ("Lambdac", 4122); ("omega", 223); ("D*0", 423);
    ("D*+", 413); ("W", 24); ("Z", 23); ("e", 11); ("eta", 221);
    ("f0", 9010221); ("mu", 13); ("phi", 333); ("pi+", 211); ("pi0", 111);
    ("psi(2S)", 100443); ("rho+", 213); ("rho0", 113); ("t", 6); ("tau", 15);
    ("u", 2); ("p", 2212); ("n", 2112) ]%Z.

(** [{v:k for k,v in PDG_PARTICLES.items()}]: a later item overwrites an
    earlier one with the same value. *)
Definition _pdg_particles_inv : gmap Z string :=
  fold_left (fun d kv => <[kv.2 := kv.1]> d) PDG_PARTICLES ∅.

Definition flavio_name (self : Particle) : option string :=
  _pdg_particles_inv !! pdgid self.
Arguments _pdg_particles_inv : simpl never.
Arguments flavio_name : simpl never.

(** ['prefix' + self.flavio_name]: concatenating [None] is a type error. *)
Definition str_add (prefix : string) (s : option string) : result string :=
  match s with
  | Some s => Return (prefix +:+ s)
  | None => Raise TypeError
  end.

(** [{self.width, self.width_upper, self.width_lower} & {None, 0}] is
    non-empty. *)
Definition none_or_zero (x : option float) : bool :=
  match x with
  | None => true
  | Some v => PyFloat.is_zero v
  end.

Definition width_undefined_or_zero (self : Particle) : bool :=
  none_or_zero (width self) || none_or_zero (width_upper self)
  || none_or_zero (width_lower self).

Section Properties.

Context {libc : Libm}.

(** [latex_name_simplified] rewrites the LaTeX name with a regular
    expression (lines 183-200); only the label text depends on it, so it
    is kept as a function of the record. *)
Variable latex_name_simplified : Particle -> string.

Definition flavio_m (self : Particle) : result Quantity :=
  (name_ <~ str_add "m_" (flavio_name self) ;;
   let tex := "$m_{" +:+ latex_name_simplified self +:+ "}$" in
   let pole_mass := if String.eqb (name self) "t" then " quark pole" else "" in
   let description :=
     "$" +:+ latex_name_simplified self +:+ "$" +:+ pole_mass +:+ " mass" in
   let central := (mass self * 0.001)%float in
   let right := (mass_upper self * 0.001)%float in
   let left := (mass_lower self * 0.001)%float in
   Return {| q_name := name_; q_tex := tex; q_description := description;
             q_central := central; q_right := right; q_left := left |})%py.

Definition flavio_tau (self : Particle) : result (option Quantity) :=
  if width_undefined_or_zero self then Return None
  else
    match width self, width_upper self, width_lower self with
    | Some w, Some wu, Some wl =>
        (name_ <~ str_add "tau_" (flavio_name self) ;;
         let tex := "$\tau_{" +:+ latex_name_simplified self +:+ "}$" in
         let description := "$" +:+ latex_name_simplified self +:+ "$ lifetime" in
         let G_central := (w * 0.001)%float in
         let G_right := (wu * 0.001)%float in
         let G_left := (wl * 0.001)%float in
         central <~ PyFloat.div 1%float G_central ;;
         G2 <~ PyFloat.pow2 G_central ;;
         right <~ PyFloat.div G_right G2 ;;
         G2' <~ PyFloat.pow2 G_central ;;
         left <~ PyFloat.div G_left G2' ;;
         Return (Some {| q_name := name_; q_tex := tex;
                         q_description := description; q_central := central;
                         q_right := right; q_left := left |}))%py
    | _, _, _ => Return None
    end.

End Properties.

(** ** The registry of parameters and the constraint store *)

Definition matrix : Type := list (list float).

(** The distribution objects handed to [add_constraint]; their classes live
    in [flavio.statistics.probability] and are used here as constructors. *)
Inductive Distribution : Type :=
| NormalDistribution (central_value standard_deviation : float)
| AsymmetricNormalDistribution (central_value right_deviation left_deviation : float)
| MultivariateNormalDistribution (central_value : list float) (covariance : matrix).

(** The attributes of a [Parameter] instance. *)
Record ParameterMeta : Type := {
  p_description : option string;
  p_tex : option string;
}.

Definition Constraint : Type := list string * Distribution.

(** The state the readers act on: the class-level dictionary of [Parameter]
    instances and the [ParameterConstraints] object passed as [constraints]. *)
Record World : Type := {
  instances : gmap string ParameterMeta;
  constraints : list Constraint;
}.

Definition with_instances (f : gmap string ParameterMeta -> gmap string ParameterMeta)
    (w : World) : World :=
  {| instances := f (instances w); constraints := constraints w |}.

Definition with_constraints (f : list Constraint -> list Constraint)
    (w : World) : World :=
  {| instances := instances w; constraints := f (constraints w) |}.

(** A statement: it returns or raises, and leaves the state it reached. *)
Definition M (A : Type) : Type := World -> result A * World.

Definition ret {A} (a : A) : M A := fun w => (Return a, w).

Definition raise {A} (e : exn) : M A := fun w => (Raise e, w).

Definition lift {A} (r : result A) : M A := fun w => (r, w).

Definition bind {A B} (c : M A) (k : A -> M B) : M B :=
  fun w =>
    match c w with
    | (Return a, w') => k a w'
    | (Raise e, w') => (Raise e, w')
    end.

Notation "x <- c ;; k" := (bind c (fun x => k))
  (at level 100, c at next level, right associativity) : py_scope.
Notation "c ;;; k" := (bind c (fun _ => k))
  (at level 100, k at level 200, right associativity) : py_scope.

(** [try: body / except KeyError: handler]. *)
Definition try_except_KeyError {A} (body handler : M A) : M A :=
  fun w =>
    match body w with
    | (Raise (KeyError _), w') => handler w'
    | r => r
    end.

(** [for x in l: body]. *)
Fixpoint for_each {A} (l : list A) (body : A -> M unit) : M unit :=
  match l with
  | [] => ret tt
  | x :: l' => (body x ;;; for_each l' body)%py
  end.

(** A loop that carries local variables [S]. *)
Fixpoint for_fold {A S} (l : list A) (body : S -> A -> M S) (s : S) : M S :=
  match l with
  | [] => ret s
  | x :: l' => (s' <- body s x ;; for_fold l' body s')%py
  end.

Module Registry.

(** Modelled from the spec: the quantity registry ([flavio.classes.Parameter],
    missing from the sources).  Section 6: [lookup(name)] fails on an
    unknown name; the handler at line 242 shows the failure is a
    [KeyError]. *)
Definition lookup (name : string) : M ParameterMeta :=
  fun w =>
    match instances w !! name with
    | Some p => (Return p, w)
    | None => (Raise (KeyError name), w)
    end.

(** Modelled from the spec: [create(name)] of the missing registry, which
    is idempotent if the name is already present (sections 3 and 6: the
    existing entity is reused); a new quantity has neither description
    nor label. *)
Definition create (name : string) : M unit :=
  fun w =>
    match instances w !! name with
    | Some _ => (Return tt, w)
    | None =>
        (Return tt,
         with_instances
           (insert name {| p_description := None; p_tex := None |}) w)
    end.

(** [p.tex = tex] on the registered instance of [name]. *)
Definition set_tex (name tex : string) : M unit :=
  fun w =>
    (Return tt,
     with_instances
       (alter (fun p => {| p_description := p_description p; p_tex := Some tex |})
          name) w).

(** [p.description = description] on the registered instance of [name]. *)
Definition set_description (name description : string) : M unit :=
  fun w =>
    (Return tt,
     with_instances
       (alter (fun p => {| p_description := Some description; p_tex := p_tex p |})
          name) w).

End Registry.

Module ParameterConstraints.

Definition unregistered (w : World) (name : string) : bool :=
  bool_decide (instances w !! name = None).

(** Modelled from the spec: [add_constraint] of the missing class
    [flavio.classes.ParameterConstraints] (section 4.4): appends a new
    constraint, neither checks for nor removes prior constraints, and
    fails if any name is unregistered. *)
Definition add_constraint (names : list string) (d : Distribution) : M unit :=
  fun w =>
    match List.find (unregistered w) names with
    | Some name => (Raise (KeyError name), w)
    | None => (Return tt, with_constraints (fun cs => (cs ++ [(names, d)])%list) w)
    end.

(** The key of a constraint is the set of its names. *)
Definition has_key (names : list string) (c : Constraint) : bool :=
  bool_decide ((list_to_set c.1 : gset string) = list_to_set names).

(** Modelled from the spec: [remove_constraint] of the missing class
    (section 4.4): removes all constraints whose key exactly matches the
    name-set; a no-op if none match. *)
Definition remove_constraint (name : string) : M unit :=
  fun w =>
    (Return tt,
     with_constraints (List.filter (fun c => negb (has_key [name] c))) w).

(** The number of constraints stored under the key of one name. *)
Definition count (name : string) (w : World) : nat :=
  length (List.filter (has_key [name]) (constraints w)).

End ParameterConstraints.

(** ** read_pdg *)

Section ReadPdg.

Context {libc : Libm}.
Variable latex_name_simplified : Particle -> string.

(** One step of the set comprehension of [flavio_all]: a particle with a
    flavio name is added to the set.  Records of the particle library are
    equal, and hash alike, when their pdgids are, so a record is added
    only if no record with its pdgid is in the set yet. *)
Definition flavio_all_add (members : list Particle) (particle : Particle)
    : list Particle :=
  if match flavio_name particle with
     | Some n => negb (String.eqb n "")
     | None => false
     end
  then
    if existsb (fun member => Z.eqb (pdgid member) (pdgid particle)) members
    then members
    else (members ++ [particle])%list
  else members.

(** [FlavioParticle.flavio_all()] over the loaded table [cls.all()]: the
    set of the particles with a flavio name, one record per pdgid.  The
    iteration order of the set is not fixed, and the table is taken in any
    order. *)
Definition flavio_all (all : list Particle) : list Particle :=
  fold_left flavio_all_add all [].

(** Lines 237-253: one pass of the inner loop for a tuple that is not
    [None]. *)
Definition read_pdg_data (data : Quantity) : M unit :=
  (let name := q_name data in
   let right := q_right data in
   let left := q_left data in
   try_except_KeyError
     (_ <- Registry.lookup name ;;
      ParameterConstraints.remove_constraint name)
     (Registry.create name) ;;;
   Registry.set_tex name (q_tex data) ;;;
   Registry.set_description name (q_description data) ;;;
   if PrimFloat.eqb right left then
     ParameterConstraints.add_constraint [name]
       (NormalDistribution (q_central data) right)
   else
     ParameterConstraints.add_constraint [name]
       (AsymmetricNormalDistribution (q_central data) right left))%py.

(** Lines 234-236: both properties are evaluated to build the tuple the
    loop runs over, then each one that is not [None] is processed. *)
Definition read_pdg_particle (particle : Particle) : M unit :=
  (m <- lift (flavio_m latex_name_simplified particle) ;;
   tau <- lift (flavio_tau latex_name_simplified particle) ;;
   for_each [Some m; tau]
     (fun data =>
        match data with
        | None => ret tt
        | Some data => read_pdg_data data
        end))%py.

(** [read_pdg(year, constraints)], with the table of that year already
    loaded as [all]. *)
Definition read_pdg (all : list Particle) : M unit :=
  for_each (flavio_all all) read_pdg_particle.

End ReadPdg.

(** ** The YAML readers *)

(** What [yaml.safe_load] returns, with string keys in mappings. *)
#[local] Unset Elimination Schemes.
Inductive yaml : Type :=
| YNull
| YBool (b : bool)
| YInt (z : Z)
| YFloat (f : float)
| YStr (s : string)
| YSeq (items : list yaml)
| YMap (items : list (string * yaml)).
#[local] Set Elimination Schemes.

(** The dictionary returned by [errors_from_string]. *)
Record error_dict : Type := {
  central_value : float;
  symmetric_errors : list float;
  asymmetric_errors : list (float * float);
}.

(** One entry of a correlated-values file: the ['values'] list of one-item
    dictionaries (each given by its items) and the ['correlation'] node. *)
Record parameter_group : Type := {
  values : list (list (string * yaml));
  correlation : yaml;
}.

Module Np.

(** [np.outer(a, b)]. *)
Definition outer (a b : list float) : matrix :=
  map (fun x => map (fun y => (x * y)%float) b) a.

(** Elementwise operations on two arrays of the same shape (the
    correlation matrix returned by [_fix_correlation_matrix] is n by n,
    as is the outer product of the n errors). *)
Definition zip_matrix (f : float -> float -> float) (a b : matrix) : matrix :=
  zip_with (zip_with f) a b.

Definition multiply : matrix -> matrix -> matrix := zip_matrix PrimFloat.mul.
Definition add : matrix -> matrix -> matrix := zip_matrix PrimFloat.add.
Definition subtract : matrix -> matrix -> matrix := zip_matrix PrimFloat.sub.

(** [a * c] for a scalar [c]. *)
Definition scale (a : matrix) (c : float) : matrix :=
  map (map (fun x => (x * c)%float)) a.

(** [np.eye(n)]. *)
Definition eye (n : nat) : matrix :=
  map (fun i => map (fun j => if Nat.eqb i j then 1%float else 0%float) (seq 0 n))
    (seq 0 n).

End Np.

(** Lines 54-59: the total error of one quantity. *)
Definition add_squares {libc : Libm} (squared_error : float) (symmetric : list float) : result float :=
  fold_left
    (fun acc sym_err =>
       (squared_error <~ acc ;;
        sq <~ PyFloat.pow2 sym_err ;;
        Return (squared_error + sq)%float)%py)
    symmetric (Return squared_error).

Definition add_products (squared_error : float) (asymmetric : list (float * float)) : float :=
  fold_left (fun squared_error asym_err => (squared_error + asym_err.1 * asym_err.2)%float)
    asymmetric squared_error.

Definition total_error {libc : Libm} (d : error_dict) : result float :=
  (squared_error <~ add_squares 0%float (symmetric_errors d) ;;
   PyFloat.sqrt (add_products squared_error (asymmetric_errors d)))%py.

(** Line 66: [(correlation - np.eye(n_dim))*0.99 + np.eye(n_dim)]. *)
Definition damp (correlation : matrix) : matrix :=
  let n_dim := length correlation in
  Np.add (Np.scale (Np.subtract correlation (Np.eye n_dim)) 0.99%float) (Np.eye n_dim).

(** Line 61: [np.outer(errors, errors)*correlation]. *)
Definition covariance_of (errors : list float) (correlation : matrix) : matrix :=
  Np.multiply (Np.outer errors errors) correlation.

Definition not_positive_definite_message : string :=
  "The covariance matrix is not positive definite!".

Section Readers.

Context {libc : Libm}.

(** External collaborators of the readers, kept as parameters:
    [ParameterConstraints.set_constraint] of [flavio.classes],
    [errors_from_string] of [flavio._parse_errors],
    [_fix_correlation_matrix] of [flavio.measurements], the test
    [np.all(np.linalg.eigvals(m) > 0)] and [str(m)] of numpy. *)
Variable set_constraint : string -> yaml -> M unit.
Variable errors_from_string : yaml -> result error_dict.
Variable _fix_correlation_matrix : yaml -> nat -> result matrix.
Variable all_eigvals_positive : matrix -> result bool.
Variable str : matrix -> string.

(** Lines 18-22: one entry of a metadata file; the values of [info] are
    strings or null. *)
Definition read_metadata_entry (entry : string * gmap string (option string)) : M unit :=
  (let parameter_name := entry.1 in
   let info := entry.2 in
   Registry.create parameter_name ;;;
   match info !! "description" with
   | Some (Some description) => Registry.set_description parameter_name description
   | _ => ret tt
   end ;;;
   match info !! "tex" with
   | Some (Some tex) => Registry.set_tex parameter_name tex
   | _ => ret tt
   end)%py.

Definition _read_yaml_object_metadata
    (parameters : list (string * gmap string (option string))) : M unit :=
  for_each parameters read_metadata_entry.

(** Lines 32-33: one entry of a values file. *)
Definition read_values_entry (entry : string * yaml) : M unit :=
  (let parameter_name := entry.1 in
   let value := entry.2 in
   _ <- Registry.lookup parameter_name ;;
   set_constraint parameter_name value)%py.

Definition _read_yaml_object_values (parameters : list (string * yaml)) : M unit :=
  for_each parameters read_values_entry.

(** Lines 49-59: one pass of the loop over [parameter_group['values']],
    carrying [parameter_names], [central_values] and [errors]. *)
Definition read_correlated_value
    (locals : list string * list float * list float)
    (dict_list : list (string * yaml))
    : M (list string * list float * list float) :=
  let '(parameter_names, central_values, errors) := locals in
  match dict_list with
  | [] => raise IndexError
  | (parameter_name, value) :: _ =>
      (_ <- Registry.lookup parameter_name ;;
       error_dict <- lift (errors_from_string value) ;;
       error <- lift (total_error error_dict) ;;
       ret ((parameter_names ++ [parameter_name])%list,
            (central_values ++ [central_value error_dict])%list,
            (errors ++ [error])%list))%py
  end.

(** Lines 60-69: the covariance that is handed to the distribution. *)
Definition checked_covariance (errors : list float) (correlation : matrix)
    : result matrix :=
  (let covariance := covariance_of errors correlation in
   positive <~ all_eigvals_positive covariance ;;
   if positive then Return covariance
   else
     let correlation := damp correlation in
     let covariance := covariance_of errors correlation in
     positive <~ all_eigvals_positive covariance ;;
     if positive then Return covariance
     else Raise (AssertionError (not_positive_definite_message +:+ str covariance)))%py.

(** Lines 45-70: one parameter group. *)
Definition read_correlated_group (group : parameter_group) : M unit :=
  (locals <- for_fold (values group) read_correlated_value ([], [], []) ;;
   let '(parameter_names, central_values, errors) := locals in
   correlation <-
     lift (_fix_correlation_matrix (correlation group) (length parameter_names)) ;;
   covariance <- lift (checked_covariance errors correlation) ;;
   ParameterConstraints.add_constraint parameter_names
     (MultivariateNormalDistribution central_values covariance))%py.

Definition _read_yaml_object_values_correlated (list_ : list parameter_group) : M unit :=
  for_each list_ read_correlated_group.

End Readers.

(** ** Derived definitions used in the statements *)

(** The rescaled width [G_central = width*1e-3]. *)
Definition G_of (w : float) : float := (w * 0.001)%float.

(** The float operations of [flavio_tau] on a width [w] do not raise:
    [G_central] and its square are not zero and the square does not
    overflow. *)
Definition lifetime_computable {libc : Libm} (w : float) : bool :=
  let G := G_of w in
  negb (PyFloat.is_zero G) && negb (PyFloat.is_zero (PyFloat.pow2_value G))
  && negb (PrimFloat.is_finite G && PrimFloat.is_infinity (PyFloat.pow2_value G)).

(** The distribution chosen at lines 247-253. *)
Definition pdg_distribution (data : Quantity) : Distribution :=
  if PrimFloat.eqb (q_right data) (q_left data)
  then NormalDistribution (q_central data) (q_right data)
  else AsymmetricNormalDistribution (q_central data) (q_right data) (q_left data).

(** The state after [read_pdg_data data]. *)
Definition after_read_pdg_data (w : World) (data : Quantity) : World :=
  {| instances :=
       <[q_name data :=
           {| p_description := Some (q_description data);
              p_tex := Some (q_tex data) |}]> (instances w);
     constraints :=
       ((match instances w !! q_name data with
         | Some _ =>
             List.filter (fun c => negb (ParameterConstraints.has_key [q_name data] c))
               (constraints w)
         | None => constraints w
         end) ++ [([q_name data], pdg_distribution data)])%list |}.

(** Left-to-right accumulation from [0.], as [squared_error += ...] does. *)
Definition sum_floats (terms : list float) : float :=
  fold_left PrimFloat.add terms 0%float.

(** The contributions to the squared error, in the order they are added. *)
Definition squared_error_terms {libc : Libm} (d : error_dict) : list float :=
  (map (fun sym_err => PyFloat.pow2_value sym_err) (symmetric_errors d)
   ++ map (fun asym_err : float * float => (asym_err.1 * asym_err.2)%float)
        (asymmetric_errors d))%list.

(** The tuples one particle contributes to the loop of [read_pdg]. *)
Definition particle_data {libc : Libm} (latex_name_simplified : Particle -> string)
    (particle : Particle) : result (list Quantity) :=
  (m <~ flavio_m latex_name_simplified particle ;;
   tau <~ flavio_tau latex_name_simplified particle ;;
   Return (m :: option_list tau))%py.

(** The tuples of a whole table, when every property evaluates. *)
Fixpoint table_data {libc : Libm} (latex_name_simplified : Particle -> string)
    (particles : list Particle) : result (list Quantity) :=
  match particles with
  | [] => Return []
  | particle :: rest =>
      (ds <~ particle_data latex_name_simplified particle ;;
       ds' <~ table_data latex_name_simplified rest ;;
       Return (ds ++ ds')%list)%py
  end.

(** ** Concrete data used in the examples *)

Module Examples.

(** A stand-in for the C library: the correctly rounded square, which is
    what [pow] returns for the exponent two at every base that reaches it
    in the examples. *)
Definition libm : Libm := {| libm_pow := fun x _ => (x * x)%float |}.
#[local] Existing Instance libm.

Definition B0 : Particle :=
  {| pdgid := 511; name := "B0"; latex_name := "B^{0}";
     mass := 5279.65%float; mass_upper := 0.12%float; mass_lower := 0.12%float;
     width := Some 1000%float; width_upper := Some 100%float;
     width_lower := Some 200%float |}.

(** The same particle with a zero upper width uncertainty, with no
    width, and with a width whose square underflows. *)
Definition B0_zero_upper : Particle :=
  {| pdgid := 511; name := "B0"; latex_name := "B^{0}";
     mass := 5279.65%float; mass_upper := 0.12%float; mass_lower := 0.12%float;
     width := Some 1000%float; width_upper := Some 0%float;
     width_lower := Some 200%float |}.

Definition B0_no_width : Particle :=
  {| pdgid := 511; name := "B0"; latex_name := "B^{0}";
     mass := 5279.65%float; mass_upper := 0.12%float; mass_lower := 0.12%float;
     width := None; width_upper := None; width_lower := None |}.

Definition B0_tiny_width : Particle :=
  {| pdgid := 511; name := "B0"; latex_name := "B^{0}";
     mass := 5279.65%float; mass_upper := 0.12%float; mass_lower := 0.12%float;
     width := Some 1e-200%float; width_upper := Some 1e-201%float;
     width_lower := Some 2e-201%float |}.

Definition empty_world : World := {| instances := ∅; constraints := [] |}.

Definition registered (names : list string) : World :=
  {| instances :=
       list_to_map (map (fun n => (n, {| p_description := None; p_tex := None |})) names);
     constraints := [] |}.

(** A state in which two constraints are stored under the lifetime name
    of [B0], as two calls of [add_constraint] leave it. *)
Definition two_lifetime_constraints : World :=
  with_constraints
    (fun _ => [(["tau_B0"], NormalDistribution 1%float 0.1%float);
               (["tau_B0"], NormalDistribution 1%float 0.2%float)])
    (registered ["tau_B0"]).

(** A stand-in for the parser: two known strings. *)
Definition errors_from_string (value : yaml) : result error_dict :=
  match value with
  | YStr "1.0 +- 0.3 +- 0.4" =>
      Return {| central_value := 1%float;
                symmetric_errors := [0.3%float; 0.4%float];
                asymmetric_errors := [] |}
  | YStr "2.0 +- 0.5 + 0.2 - 0.8" =>
      Return {| central_value := 2%float;
                symmetric_errors := [0.5%float];
                asymmetric_errors := [(0.2%float, 0.8%float)] |}
  | _ => Raise (ValueError "cannot parse")
  end.

(** A stand-in for the correlation reader: a single number is the
    correlation of every pair. *)
Definition _fix_correlation_matrix (c : yaml) (n : nat) : result matrix :=
  match c with
  | YFloat r =>
      Return (map (fun i => map (fun j => if Nat.eqb i j then 1%float else r) (seq 0 n))
                (seq 0 n))
  | _ => Raise (ValueError "unsupported correlation")
  end.

(** A stand-in for the eigenvalue test on symmetric matrices of size one
    and two: positive trace and determinant. *)
Definition all_eigvals_positive (m : matrix) : result bool :=
  match m with
  | [[a]] => Return (PrimFloat.ltb 0%float a)
  | [[a; b]; [c; d]] =>
      Return (PrimFloat.ltb 0%float (a + d)%float
              && PrimFloat.ltb 0%float (a * d - b * c)%float)
  | _ => Raise LinAlgError
  end.

Definition str (m : matrix) : string := "[...]".

(** A stand-in for [set_constraint]: a number becomes a normal
    constraint of unit width. *)
Definition set_constraint (name : string) (value : yaml) : M unit :=
  match value with
  | YFloat x =>
      (ParameterConstraints.remove_constraint name ;;;
       ParameterConstraints.add_constraint [name] (NormalDistribution x 1%float))%py
  | _ => raise (ValueError "cannot parse")
  end.

Definition group (r : float) : parameter_group :=
  {| values := [[("a", YStr "1.0 +- 0.3 +- 0.4")]; [("b", YStr "2.0 +- 0.5 + 0.2 - 0.8")]];
     correlation := YFloat r |}.

Definition error_dict_a : error_dict :=
  {| central_value := 1%float;
     symmetric_errors := [0.3%float; 0.4%float];
     asymmetric_errors := [] |}.

Definition error_dict_b : error_dict :=
  {| central_value := 2%float;
     symmetric_errors := [0.5%float];
     asymmetric_errors := [(0.2%float, 0.8%float)] |}.

(** The errors of the two quantities of [group]. *)
Definition group_errors : list float :=
  [PrimFloat.sqrt (sum_floats (squared_error_terms error_dict_a));
   PrimFloat.sqrt (sum_floats (squared_error_terms error_dict_b))].

Definition group_correlation (r : float) : matrix :=
  [[1%float; r]; [r; 1%float]].

(** A group whose second name is not registered in [registered ["a"]]. *)
Definition group_unknown : parameter_group :=
  {| values := [[("a", YStr "1.0 +- 0.3 +- 0.4")]; [("zz", YStr "1.0 +- 0.3 +- 0.4")]];
     correlation := YFloat 0.5%float |}.

End Examples.

(** ** The names of particles *)

(** The dictionary [PDG_PARTICLES]: a later item of the literal overwrites
    an earlier one with the same key. *)
Definition PDG_PARTICLES_dict : gmap string Z :=
  fold_left (fun d kv => <[kv.1 := kv.2]> d) PDG_PARTICLES ∅.
Arguments PDG_PARTICLES_dict : simpl never.

Module FlavioParticle.

(** [cls.from_flavio_name(flavio_name)]: the look-up in [PDG_PARTICLES]
    raises [KeyError] on an unknown name; [from_pdgid] is the class method
    of the particle library. *)
Definition from_flavio_name (from_pdgid : Z -> result Particle)
    (flavio_name : string) : result Particle :=
  match PDG_PARTICLES_dict !! flavio_name with
  | Some id => from_pdgid id
  | None => Raise (KeyError flavio_name)
  end.

(** The character class [[A-Za-z\\/]] of [_pdg_tex_regex]. *)
Definition in_name_class (c : Ascii.ascii) : bool :=
  let n := Ascii.nat_of_ascii c in
  (Nat.leb 65 n && Nat.leb n 90) || (Nat.leb 97 n && Nat.leb n 122)
  || Nat.eqb n 92 || Nat.eqb n 47.

(** [([A-Za-z\\/]+)], greedy: the longest run of such characters, and what
    follows it.  Nothing after this group can fail, so the run is never
    shortened by backtracking. *)
Fixpoint name_run (s : string) : string * string :=
  match s with
  | String c s' =>
      if in_name_class c
      then let '(run, rest) := name_run s' in (String c run, rest)
      else (EmptyString, s)
  | EmptyString => (EmptyString, EmptyString)
  end.

(** [(.*?)] followed by a closing character: the shortest text without a
    newline up to the first closing character, and what follows that
    character. *)
Fixpoint lazy_until (close : Ascii.ascii) (s : string) : option (string * string) :=
  match s with
  | EmptyString => None
  | String c s' =>
      if Ascii.eqb c close then Some (EmptyString, s')
      else if Ascii.eqb c "010"%char then None
      else
        match lazy_until close s' with
        | Some (captured, rest) => Some (String c captured, rest)
        | None => None
        end
  end.

Fixpoint strip_prefix (prefix s : string) : option string :=
  match prefix, s with
  | EmptyString, _ => Some s
  | String a prefix', String b s' =>
      if Ascii.eqb a b then strip_prefix prefix' s' else None
  | String _ _, EmptyString => None
  end.

(** [(?:opening(.*?)close)*], greedy: as many repetitions as match; the
    group keeps the text of its last repetition ([None] when there is
    none).  [fuel] bounds the number of repetitions. *)
Fixpoint repeat_group (fuel : nat) (opening : string) (close : Ascii.ascii)
    (last : option string) (s : string) : option string * string :=
  match fuel with
  | 0 => (last, s)
  | S fuel' =>
      match strip_prefix opening s with
      | None => (last, s)
      | Some s1 =>
          match lazy_until close s1 with
          | None => (last, s)
          | Some (captured, s2) => repeat_group fuel' opening close (Some captured) s2
          end
      end
  end.

(** [_pdg_tex_regex.match(latex_name)]: groups 1 to 5, or [None]. *)
Definition pdg_tex_match (latex_name : string)
    : option (string * option string * option string * option string * option string) :=
  let '(g1, rest) := name_run latex_name in
  match g1 with
  | EmptyString => None
  | String _ _ =>
      let fuel := String.length latex_name in
      let '(g2, rest) := repeat_group fuel "_{" "}"%char None rest in
      let '(g3, rest) := repeat_group fuel "^{" "}"%char None rest in
      let '(g4, rest) := repeat_group fuel "(" ")"%char None rest in
      let '(g5, _) := repeat_group fuel "^{" "}"%char None rest in
      Some (g1, g2, g3, g4, g5)
  end.

(** The truth value of a group: neither [None] nor empty. *)
Definition truthy (g : option string) : bool :=
  match g with
  | Some (String _ _) => true
  | _ => false
  end.

(** [g or '']. *)
Definition or_empty (g : option string) : string :=
  match g with
  | Some s => s
  | None => EmptyString
  end.

(** ['*' in s]. *)
Fixpoint contains_star (s : string) : bool :=
  match s with
  | EmptyString => false
  | String c s' => Ascii.eqb c "*"%char || contains_star s'
  end.

Fixpoint all_digits (s : string) : bool :=
  match s with
  | EmptyString => true
  | String c s' =>
      Nat.leb 48 (Ascii.nat_of_ascii c) && Nat.leb (Ascii.nat_of_ascii c) 57 && all_digits s'
  end.

(** [s.isdigit()] on an ASCII string: the string is not empty and all
    its characters are among [0] to [9].  (Outside ASCII, Python counts
    further characters as digits.) *)
Definition isdigit (s : string) : bool :=
  match s with
  | EmptyString => false
  | String _ _ => all_digits s
  end.

(** Lines 184-200, as a function of [self.latex_name] (an ASCII string). *)
Definition latex_name_simplified (latex_name : string) : string :=
  match pdg_tex_match latex_name with
  | None => latex_name
  | Some (name, sub, g3, par, g5) =>
      let sup := or_empty g3 +:+ or_empty g5 in
      let sup :=
        if truthy sub
           || bool_decide (name ∈ ["W"; "Z"; "H"; "e"; "\mu"; "\tau"])
        then (if contains_star sup then "*" else "")
        else sup in
      let sub :=
        if negb (truthy sub) && truthy par && negb (isdigit (or_empty par))
           && negb (String.eqb name "J/\psi")
        then par
        else sub in
      let sub_tex := if truthy sub then "_{" +:+ or_empty sub +:+ "}" else "" in
      let sup_tex := if truthy (Some sup) then "^{" +:+ sup +:+ "}" else "" in
      name +:+ sub_tex +:+ sup_tex
  end.

End FlavioParticle.

(** ** Invariants of the state *)

(** Every name of every stored constraint is registered. *)
Definition names_registered (w : World) : Prop :=
  forall c n, In c (constraints w) -> In n c.1 -> is_Some (instances w !! n).

(** The first key of each one-item dictionary of a ['values'] list. *)
Definition first_keys (vals : list (list (string * yaml))) : list string :=
  omap (fun dict_list => fst <$> head dict_list) vals.

(** The pending writes of a list of metadata entries to one parameter: the
    last description and the last label written to it. *)
Definition metadata_writes (parameter_name : string)
    (parameters : list (string * gmap string (option string)))
    : option string * option string :=
  fold_left
    (fun acc (entry : string * gmap string (option string)) =>
       if String.eqb entry.1 parameter_name
       then (match entry.2 !! "description" with
             | Some (Some d) => Some d
             | _ => acc.1
             end,
             match entry.2 !! "tex" with
             | Some (Some t) => Some t
             | _ => acc.2
             end)
       else acc)
    parameters (None, None).

(** One step of [metadata_writes]. *)
Definition metadata_step (parameter_name : string)
    (acc : option string * option string)
    (entry : string * gmap string (option string))
    : option string * option string :=
  if String.eqb entry.1 parameter_name
  then (match entry.2 !! "description" with
        | Some (Some d) => Some d
        | _ => acc.1
        end,
        match entry.2 !! "tex" with
        | Some (Some t) => Some t
        | _ => acc.2
        end)
  else acc.

(** Every character of the text is in the class of names. *)
Fixpoint all_in_name_class (s : string) : bool :=
  match s with
  | EmptyString => true
  | String c s' => FlavioParticle.in_name_class c && all_in_name_class s'
  end.

(** The text contains neither the closing character nor a newline. *)
Fixpoint plain_text (close : Ascii.ascii) (s : string) : bool :=
  match s with
  | EmptyString => true
  | String c s' =>
      negb (Ascii.eqb c close) && negb (Ascii.eqb c "010"%char) && plain_text close s'
  end.

(** Every character of the text is an ASCII character. *)
Fixpoint all_ascii (s : string) : bool :=
  match s with
  | EmptyString => true
  | String c s' => Nat.ltb (Ascii.nat_of_ascii c) 128 && all_ascii s'
  end.

(** The names whose charge is dropped at line 192. *)
Definition charge_dropped (name : string) : bool :=
  bool_decide (name ∈ ["W"; "Z"; "H"; "e"; "\mu"; "\tau"]).

(** The attributes of a parameter once pending writes have been applied. *)
Definition apply_metadata_writes (writes : option string * option string)
    (p : ParameterMeta) : ParameterMeta :=
  {| p_description :=
       match writes.1 with
       | Some d => Some d
       | None => p_description p
       end;
     p_tex :=
       match writes.2 with
       | Some t => Some t
       | None => p_tex p
       end |}.

(** The file has an entry for the parameter. *)
Definition in_metadata_file (parameter_name : string)
    (parameters : list (string * gmap string (option string))) : bool :=
  existsb (fun entry => String.eqb entry.1 parameter_name) parameters.

Module MoreExamples.

(** A stand-in for [Particle.from_pdgid]: a record with the requested
    identifier. *)
Definition from_pdgid (id : Z) : result Particle :=
  Return {| pdgid := id; name := ""; latex_name := "";
            mass := 1%float; mass_upper := 0%float; mass_lower := 0%float;
            width := None; width_upper := None; width_lower := None |}.

(** A particle with equal upper and lower width uncertainties. *)
Definition Bs_symmetric : Particle :=
  {| pdgid := 531; name := "B(s)0"; latex_name := "B_{s}^{0}";
     mass := 5366.88%float; mass_upper := 0.14%float; mass_lower := 0.14%float;
     width := Some 1000%float; width_upper := Some 100%float;
     width_lower := Some 100%float |}.



(** The label function used by the reader on real records. *)
Definition simplified (self : Particle) : string :=
  FlavioParticle.latex_name_simplified (latex_name self).

Definition negative_errors : error_dict :=
  {| central_value := 1%float;
     symmetric_errors := [];
     asymmetric_errors := [(0.5%float, (-0.8)%float)] |}.

Definition overflowing_errors : error_dict :=
  {| central_value := 1%float;
     symmetric_errors := [0.5%float; 1e200%float; 0.1%float];
     asymmetric_errors := [] |}.

Definition group_empty_dict : parameter_group :=
  {| values := [[("a", YStr "1.0 +- 0.3 +- 0.4")]; []];
     correlation := YFloat 0.5%float |}.

Definition metadata_file : list (string * gmap string (option string)) :=
  [ ("a", {[ "description" := Some "first"; "tex" := None ]});
    ("b", ∅);
    ("a", {[ "tex" := Some "$a$" ]}) ].

(** A state that already holds a constraint on two names. *)
Definition correlated_world : World :=
  {| instances := instances (Examples.registered ["a"; "b"]);
     constraints :=
       [(["a"; "b"],
         MultivariateNormalDistribution [1%float; 2%float]
           [[1%float; 0%float]; [0%float; 1%float]])] |}.

End MoreExamples.

(** ** The lifetime derived from the width *)

Section FlavioTau.

Context {libc : Libm}.
Variable latex_name_simplified : Particle -> string.

Lemma none_or_zero_false (x : option float) :
  none_or_zero x = false -> exists v, x = Some v /\ PyFloat.is_zero v = false.
Proof. destruct x as [v|]; simpl; [eauto | discriminate]. Qed.

Lemma width_undefined_or_zero_false (self : Particle) :
  width_undefined_or_zero self = false ->
  exists w wu wl,
    width self = Some w /\ width_upper self = Some wu /\ width_lower self = Some wl
    /\ PyFloat.is_zero w = false /\ PyFloat.is_zero wu = false
    /\ PyFloat.is_zero wl = false.
Proof.
  unfold width_undefined_or_zero. intros H.
  apply orb_false_elim in H as [H Hl]. apply orb_false_elim in H as [Hw Hu].
  destruct (none_or_zero_false _ Hw) as (w & -> & ?).
  destruct (none_or_zero_false _ Hu) as (wu & -> & ?).
  destruct (none_or_zero_false _ Hl) as (wl & -> & ?).
  exists w, wu, wl. auto 10.
Qed.

Lemma flavio_tau_None_iff (self : Particle) :
  flavio_tau latex_name_simplified self = Return None
  <-> width_undefined_or_zero self = true.
Proof.
  unfold flavio_tau. split.
  - destruct (width_undefined_or_zero self) eqn:E; [reflexivity|].
    destruct (width_undefined_or_zero_false _ E) as (w & wu & wl & -> & -> & -> & _).
    unfold str_add, PyFloat.div, PyFloat.pow2.
    destruct (flavio_name self); simpl; [|discriminate].
    repeat match goal with
           | |- context [if ?b then _ else _] => destruct b; simpl; try discriminate
           end.
  - intros ->. reflexivity.
Qed.

(** C1, as amended: for a particle with a flavio name whose width and
    width uncertainties are all defined and nonzero, and on which the
    float operations do not raise, [flavio_tau] returns the central value
    [1/G] and keeps the sides: the right uncertainty is [G_right/G**2]
    and the left uncertainty is [G_left/G**2], where [G], [G_right] and
    [G_left] are the width and its upper and lower uncertainties times
    [1e-3] and [G**2] is the float power of the interpreter. *)
Theorem flavio_tau_keeps_sides (self : Particle) (fn : string) (w wu wl : float) :
  flavio_name self = Some fn ->
  width self = Some w -> width_upper self = Some wu -> width_lower self = Some wl ->
  PyFloat.is_zero w = false -> PyFloat.is_zero wu = false ->
  PyFloat.is_zero wl = false ->
  lifetime_computable w = true ->
  flavio_tau latex_name_simplified self =
    Return (Some
      {| q_name := "tau_" +:+ fn;
         q_tex := "$\tau_{" +:+ latex_name_simplified self +:+ "}$";
         q_description := "$" +:+ latex_name_simplified self +:+ "$ lifetime";
         q_central := (1 / G_of w)%float;
         q_right := (G_of wu / PyFloat.pow2_value (G_of w))%float;
         q_left := (G_of wl / PyFloat.pow2_value (G_of w))%float |}).
Proof.
  intros Hn Hw Hwu Hwl Zw Zwu Zwl Hc.
  unfold lifetime_computable in Hc.
  apply andb_prop in Hc as [Hc Hov]. apply andb_prop in Hc as [HG HG2].
  apply negb_true_iff in HG, HG2, Hov.
  unfold flavio_tau, width_undefined_or_zero.
  rewrite Hw, Hwu, Hwl, Hn. simpl. rewrite Zw, Zwu, Zwl. simpl.
  unfold PyFloat.div, PyFloat.pow2. fold (G_of w) (G_of wu) (G_of wl).
  rewrite HG. simpl. rewrite Hov. simpl. rewrite HG2. simpl.
  reflexivity.
Qed.

End FlavioTau.

(** ** The PDG reader *)

Lemma alter_alter_insert (m : gmap string ParameterMeta) (k : string)
    (f g : ParameterMeta -> ParameterMeta) (p : ParameterMeta) :
  m !! k = Some p -> alter f k (alter g k m) = <[k := f (g p)]> m.
Proof.
  intros H. apply map_eq. intros j.
  rewrite !lookup_alter, lookup_insert.
  repeat case_decide; subst; try congruence.
  rewrite H. reflexivity.
Qed.

Lemma add_constraint_registered (name : string) (d : Distribution) (w : World) :
  is_Some (instances w !! name) ->
  ParameterConstraints.add_constraint [name] d w
  = (Return tt, with_constraints (fun cs => (cs ++ [([name], d)])%list) w).
Proof.
  intros [p Hp]. unfold ParameterConstraints.add_constraint. simpl.
  unfold ParameterConstraints.unregistered. rewrite Hp.
  rewrite bool_decide_eq_false_2 by discriminate. reflexivity.
Qed.

(** *** Counting constraints under the key of one name *)

Lemma singleton_key_inj (n n' : string) :
  (list_to_set [n'] : gset string) = list_to_set [n] -> n' = n.
Proof.
  simpl. intros H.
  assert (Hin : n' ∈ ({[n']} ∪ ∅ : gset string))
    by (apply elem_of_union_l, elem_of_singleton; reflexivity).
  rewrite H in Hin. apply elem_of_union in Hin as [Hin|Hin].
  - apply elem_of_singleton in Hin. exact Hin.
  - apply not_elem_of_empty in Hin. destruct Hin.
Qed.

Lemma has_key_single (n n' : string) (d : Distribution) :
  ParameterConstraints.has_key [n] ([n'], d) = true <-> n' = n.
Proof.
  unfold ParameterConstraints.has_key. rewrite bool_decide_eq_true.
  split; [apply singleton_key_inj | intros ->; reflexivity].
Qed.

Lemma has_key_disjoint (n n' : string) (c : Constraint) :
  n <> n' ->
  ParameterConstraints.has_key [n] c = true ->
  ParameterConstraints.has_key [n'] c = false.
Proof.
  unfold ParameterConstraints.has_key. intros Hne H.
  apply bool_decide_eq_true in H. apply bool_decide_eq_false.
  rewrite H. intros E. apply singleton_key_inj in E. congruence.
Qed.

Lemma filter_removed {A} (f : A -> bool) (l : list A) :
  List.filter f (List.filter (fun c => negb (f c)) l) = [].
Proof.
  induction l as [|c l IH]; simpl; [reflexivity|].
  destruct (f c) eqn:E; simpl; [assumption|]. rewrite E. assumption.
Qed.

Lemma filter_untouched {A} (f g : A -> bool) (l : list A) :
  (forall c, f c = true -> g c = false) ->
  List.filter f (List.filter (fun c => negb (g c)) l) = List.filter f l.
Proof.
  intros H. induction l as [|c l IH]; simpl; [reflexivity|].
  destruct (g c) eqn:Eg; simpl.
  - destruct (f c) eqn:Ef; [|assumption].
    rewrite (H c Ef) in Eg. discriminate.
  - rewrite IH. reflexivity.
Qed.

Lemma instances_after (w : World) (d : Quantity) (n : string) :
  is_Some (instances w !! n) -> is_Some (instances (after_read_pdg_data w d) !! n).
Proof.
  intros H. simpl. rewrite lookup_insert. case_decide; [eauto | assumption].
Qed.

Lemma instances_after_other (w : World) (d : Quantity) (n : string) :
  n <> q_name d ->
  instances (after_read_pdg_data w d) !! n = instances w !! n.
Proof. intros H. simpl. apply lookup_insert_ne. congruence. Qed.

Lemma count_after_same (w : World) (d : Quantity) :
  is_Some (instances w !! q_name d) ->
  ParameterConstraints.count (q_name d) (after_read_pdg_data w d) = 1.
Proof.
  intros [p Hp]. unfold ParameterConstraints.count, after_read_pdg_data. simpl.
  rewrite Hp, List.filter_app, filter_removed. simpl.
  rewrite (proj2 (has_key_single _ _ _) eq_refl). reflexivity.
Qed.

Lemma count_after_other (w : World) (d : Quantity) (n : string) :
  n <> q_name d ->
  ParameterConstraints.count n (after_read_pdg_data w d)
  = ParameterConstraints.count n w.
Proof.
  intros Hne. unfold ParameterConstraints.count, after_read_pdg_data. simpl.
  rewrite List.filter_app. simpl.
  destruct (ParameterConstraints.has_key [n] ([q_name d], pdg_distribution d)) eqn:E.
  { apply has_key_single in E. congruence. }
  rewrite app_nil_r.
  destruct (instances w !! q_name d); [|reflexivity].
  rewrite filter_untouched; [reflexivity|].
  intros c. apply has_key_disjoint. assumption.
Qed.

Lemma instances_fold (ds : list Quantity) (w : World) (n : string) :
  is_Some (instances w !! n) ->
  is_Some (instances (fold_left after_read_pdg_data ds w) !! n).
Proof.
  revert w. induction ds as [|d ds IH]; intros w H; simpl; [assumption|].
  apply IH, instances_after, H.
Qed.

Lemma instances_fold_in (ds : list Quantity) (w : World) (n : string) :
  In n (map q_name ds) ->
  is_Some (instances (fold_left after_read_pdg_data ds w) !! n).
Proof.
  revert w. induction ds as [|d ds IH]; intros w H; simpl in *; [tauto|].
  destruct H as [<- | H]; [|apply IH, H].
  apply instances_fold. simpl. rewrite lookup_insert_eq. eauto.
Qed.

Lemma count_fold_other (ds : list Quantity) (w : World) (n : string) :
  ~ In n (map q_name ds) ->
  ParameterConstraints.count n (fold_left after_read_pdg_data ds w)
  = ParameterConstraints.count n w.
Proof.
  revert w. induction ds as [|d ds IH]; intros w H; simpl in *; [reflexivity|].
  rewrite IH by tauto. apply count_after_other. intros ->. tauto.
Qed.

Lemma count_fold_in (ds : list Quantity) (w : World) (n : string) :
  (forall m, In m (map q_name ds) -> is_Some (instances w !! m)) ->
  In n (map q_name ds) ->
  ParameterConstraints.count n (fold_left after_read_pdg_data ds w) = 1.
Proof.
  revert w. induction ds as [|d ds IH]; intros w Hreg H; simpl in *; [tauto|].
  destruct (in_dec String.string_dec n (map q_name ds)) as [Hin | Hout].
  - apply IH; [|assumption]. intros m Hm. apply instances_after. auto.
  - destruct H as [<- | H]; [|contradiction].
    rewrite count_fold_other by assumption.
    apply count_after_same. auto.
Qed.

Section ReadPdgFacts.

Context {libc : Libm}.
Variable latex_name_simplified : Particle -> string.

Lemma read_pdg_data_spec (data : Quantity) (w : World) :
  read_pdg_data data w = (Return tt, after_read_pdg_data w data).
Proof.
  unfold read_pdg_data, after_read_pdg_data, bind, try_except_KeyError,
    Registry.lookup, Registry.create, Registry.set_tex, Registry.set_description,
    ParameterConstraints.remove_constraint.
  fold (pdg_distribution data).
  destruct (instances w !! q_name data) as [p|] eqn:E; simpl.
  - replace (if PrimFloat.eqb (q_right data) (q_left data) then _ else _)
      with (ParameterConstraints.add_constraint [q_name data] (pdg_distribution data))
      by (unfold pdg_distribution; destruct PrimFloat.eqb; reflexivity).
    rewrite add_constraint_registered.
    + unfold with_constraints, with_instances; simpl. f_equal. f_equal.
      erewrite alter_alter_insert by eassumption. reflexivity.
    + simpl. rewrite !lookup_alter. rewrite !decide_True by reflexivity.
      rewrite E. simpl. eauto.
  - replace (if PrimFloat.eqb (q_right data) (q_left data) then _ else _)
      with (ParameterConstraints.add_constraint [q_name data] (pdg_distribution data))
      by (unfold pdg_distribution; destruct PrimFloat.eqb; reflexivity).
    rewrite E. simpl.
    rewrite add_constraint_registered.
    + unfold with_constraints, with_instances; simpl. f_equal. f_equal.
      erewrite alter_alter_insert by apply lookup_insert_eq.
      simpl. apply insert_insert_eq.
    + simpl. rewrite !lookup_alter. rewrite !decide_True by reflexivity.
      rewrite lookup_insert_eq. simpl. eauto.
Qed.

Lemma read_pdg_particle_spec (particle : Particle) (w : World) :
  read_pdg_particle latex_name_simplified particle w =
    match particle_data latex_name_simplified particle with
    | Return ds => (Return tt, fold_left after_read_pdg_data ds w)
    | Raise e => (Raise e, w)
    end.
Proof.
  unfold read_pdg_particle, particle_data, bind, lift.
  destruct (flavio_m latex_name_simplified particle) as [m|e]; simpl; [|reflexivity].
  destruct (flavio_tau latex_name_simplified particle) as [[t|]|e]; simpl;
    [| |reflexivity]; unfold bind, ret; rewrite !read_pdg_data_spec; reflexivity.
Qed.

Lemma table_data_cons (particle : Particle) (rest : list Particle) (ds : list Quantity) :
  table_data latex_name_simplified (particle :: rest) = Return ds ->
  exists d d',
    particle_data latex_name_simplified particle = Return d
    /\ table_data latex_name_simplified rest = Return d'
    /\ ds = (d ++ d')%list.
Proof.
  cbn [table_data].
  destruct (particle_data latex_name_simplified particle) as [d|e];
    cbn [rbind]; [|discriminate].
  destruct (table_data latex_name_simplified rest) as [d'|e];
    cbn [rbind]; [|discriminate].
  intros [= <-]. eauto.
Qed.

Lemma for_each_read_pdg_particle_ok (particles : list Particle) (ds : list Quantity) :
  table_data latex_name_simplified particles = Return ds ->
  forall w,
    for_each particles (read_pdg_particle latex_name_simplified) w
    = (Return tt, fold_left after_read_pdg_data ds w).
Proof.
  revert ds. induction particles as [|particle rest IH]; intros ds H w.
  - injection H as <-. reflexivity.
  - apply table_data_cons in H as (d & d' & Hd & Hd' & ->).
    cbn [for_each]. unfold bind at 1. rewrite read_pdg_particle_spec, Hd.
    rewrite fold_left_app. apply IH. exact Hd'.
Qed.

Lemma for_each_read_pdg_particle_data (particles : list Particle) (w w' : World) :
  for_each particles (read_pdg_particle latex_name_simplified) w = (Return tt, w') ->
  exists ds, table_data latex_name_simplified particles = Return ds.
Proof.
  revert w. induction particles as [|particle rest IH]; intros w H.
  - exists []. reflexivity.
  - cbn [for_each] in H. unfold bind at 1 in H.
    rewrite read_pdg_particle_spec in H. cbn [table_data].
    destruct (particle_data latex_name_simplified particle) as [d|e];
      [|discriminate].
    destruct (IH _ H) as [ds' ->]. cbn [rbind]. eauto.
Qed.

Lemma particle_data_mass (particle : Particle) (fn : string) (d : list Quantity) :
  particle_data latex_name_simplified particle = Return d ->
  flavio_name particle = Some fn ->
  In ("m_" +:+ fn) (map q_name d).
Proof.
  unfold particle_data, flavio_m. intros H Hn. rewrite Hn in H.
  cbn [str_add rbind] in H.
  destruct (flavio_tau latex_name_simplified particle); cbn [rbind] in H;
    [|discriminate].
  injection H as <-. left. reflexivity.
Qed.

Lemma table_data_mass (particles : list Particle) (ds : list Quantity)
    (particle : Particle) (fn : string) :
  table_data latex_name_simplified particles = Return ds ->
  In particle particles -> flavio_name particle = Some fn ->
  In ("m_" +:+ fn) (map q_name ds).
Proof.
  revert ds. induction particles as [|p rest IH]; intros ds H Hin Hn;
    [destruct Hin|].
  apply table_data_cons in H as (d & d' & Hd & Hd' & ->).
  rewrite map_app. apply in_or_app.
  destruct Hin as [-> | Hin]; [left | right; eauto].
  eapply particle_data_mass; eassumption.
Qed.

Lemma flavio_tau_name (particle : Particle) (fn : string) (q : Quantity) :
  flavio_name particle = Some fn ->
  flavio_tau latex_name_simplified particle = Return (Some q) ->
  q_name q = "tau_" +:+ fn.
Proof.
  unfold flavio_tau. intros Hn.
  destruct (width_undefined_or_zero particle); [discriminate|].
  destruct (width particle), (width_upper particle), (width_lower particle);
    try discriminate.
  rewrite Hn. unfold PyFloat.div, PyFloat.pow2. cbn [str_add rbind].
  repeat match goal with
         | |- context [if ?b then _ else _] =>
             destruct b; cbn [rbind]; try discriminate
         end.
  intros [= <-]. reflexivity.
Qed.

Lemma table_data_tau (particles : list Particle) (ds : list Quantity)
    (particle : Particle) (fn : string) (q : Quantity) :
  table_data latex_name_simplified particles = Return ds ->
  In particle particles -> flavio_name particle = Some fn ->
  flavio_tau latex_name_simplified particle = Return (Some q) ->
  In ("tau_" +:+ fn) (map q_name ds).
Proof.
  revert ds. induction particles as [|p rest IH]; intros ds H Hin Hn Ht;
    [destruct Hin|].
  apply table_data_cons in H as (d & d' & Hd & Hd' & ->).
  rewrite map_app. apply in_or_app.
  destruct Hin as [-> | Hin]; [left | right; eauto].
  unfold particle_data in Hd. rewrite Ht in Hd.
  destruct (flavio_m latex_name_simplified particle); cbn [rbind] in Hd;
    [|discriminate].
  injection Hd as <-. right. left. eapply flavio_tau_name; eassumption.
Qed.

End ReadPdgFacts.

Lemma mass_name_not_lifetime_name (fn : string) : "tau_" +:+ fn <> "m_" +:+ fn.
Proof. cbn. discriminate. Qed.

Section ReadPdgTheorems.

Context {libc : Libm}.
Variable latex_name_simplified : Particle -> string.

Lemma read_pdg_particle_no_lifetime (self : Particle) (fn : string) :
  flavio_name self = Some fn ->
  width_undefined_or_zero self = true ->
  exists m,
    flavio_m latex_name_simplified self = Return m
    /\ q_name m = "m_" +:+ fn
    /\ forall w,
         read_pdg_particle latex_name_simplified self w
         = (Return tt, after_read_pdg_data w m).
Proof.
  intros Hn Hz. unfold flavio_m. rewrite Hn. cbn [str_add rbind].
  eexists. split; [reflexivity|]. split; [reflexivity|].
  intros w. rewrite read_pdg_particle_spec. unfold particle_data, flavio_m.
  rewrite Hn. cbn [str_add rbind].
  rewrite (proj2 (flavio_tau_None_iff latex_name_simplified self) Hz).
  reflexivity.
Qed.

(** C5: a particle whose width is zero, or whose width or one of whose
    width uncertainties is [None], has no lifetime: [flavio_tau] returns
    [None] without raising, and [read_pdg] processes the particle without
    an error, adds its mass constraint and leaves the lifetime name
    alone. *)
Theorem read_pdg_skips_undefined_lifetime (self : Particle) :
  (width self = None \/ width_upper self = None \/ width_lower self = None
   \/ exists z, width self = Some z /\ PyFloat.is_zero z = true) ->
  flavio_tau latex_name_simplified self = Return None
  /\ forall fn w,
       flavio_name self = Some fn ->
       exists m w',
         flavio_m latex_name_simplified self = Return m
         /\ read_pdg_particle latex_name_simplified self w = (Return tt, w')
         /\ last (constraints w') = Some (["m_" +:+ fn], pdg_distribution m)
         /\ is_Some (instances w' !! ("m_" +:+ fn))
         /\ ParameterConstraints.count ("tau_" +:+ fn) w'
            = ParameterConstraints.count ("tau_" +:+ fn) w
         /\ instances w' !! ("tau_" +:+ fn) = instances w !! ("tau_" +:+ fn).
Proof.
  intros H.
  assert (Hz : width_undefined_or_zero self = true).
  { unfold width_undefined_or_zero.
    destruct H as [-> | [-> | [-> | (z & -> & Hz)]]]; simpl;
      rewrite ?Hz, ?orb_true_r; reflexivity. }
  split; [apply flavio_tau_None_iff, Hz|].
  intros fn w Hn.
  destruct (read_pdg_particle_no_lifetime self fn Hn Hz) as (m & Hm & Hname & Hrun).
  exists m, (after_read_pdg_data w m). rewrite Hrun, <- Hname.
  repeat split; try assumption.
  - simpl. apply last_snoc.
  - simpl. rewrite lookup_insert_eq. eauto.
  - apply count_after_other. rewrite Hname. apply mass_name_not_lifetime_name.
  - apply instances_after_other. rewrite Hname. apply mass_name_not_lifetime_name.
Qed.

(** C9: a particle whose width is defined and nonzero but one of whose
    width uncertainties is zero has no lifetime either: [flavio_tau]
    returns [None] exactly when one of the three width fields is [None]
    or equal to [0], and [read_pdg] then adds only the mass constraint. *)
Theorem flavio_tau_zero_uncertainty (self : Particle) (w z : float) :
  width self = Some w -> PyFloat.is_zero w = false ->
  PyFloat.is_zero z = true ->
  width_upper self = Some z \/ width_lower self = Some z ->
  flavio_tau latex_name_simplified self = Return None
  /\ (forall other : Particle,
        flavio_tau latex_name_simplified other = Return None
        <-> (none_or_zero (width other) || none_or_zero (width_upper other)
             || none_or_zero (width_lower other)) = true)
  /\ forall fn world,
       flavio_name self = Some fn ->
       exists m,
         flavio_m latex_name_simplified self = Return m
         /\ read_pdg_particle latex_name_simplified self world
            = (Return tt, after_read_pdg_data world m)
         /\ ParameterConstraints.count ("tau_" +:+ fn) (after_read_pdg_data world m)
            = ParameterConstraints.count ("tau_" +:+ fn) world.
Proof.
  intros Hw Zw Zz Hu.
  assert (Hz : width_undefined_or_zero self = true).
  { unfold width_undefined_or_zero.
    destruct Hu as [-> | ->]; simpl; rewrite Zz; rewrite ?orb_true_r; reflexivity. }
  split; [apply flavio_tau_None_iff, Hz|].
  split; [intros other; apply flavio_tau_None_iff|].
  intros fn world Hn.
  destruct (read_pdg_particle_no_lifetime self fn Hn Hz) as (m & Hm & Hname & Hrun).
  exists m. split; [assumption|]. split; [apply Hrun|].
  apply count_after_other. rewrite Hname. apply mass_name_not_lifetime_name.
Qed.

(** C6: the constraint [read_pdg] adds for a derived quantity is keyed by
    its name alone; it is a [NormalDistribution] whose standard deviation
    is the right uncertainty when [right == left], and otherwise an
    [AsymmetricNormalDistribution] with [right_deviation=right] and
    [left_deviation=left]. *)
Theorem read_pdg_data_distribution (data : Quantity) (w : World) :
  exists w' kept,
    read_pdg_data data w = (Return tt, w')
    /\ constraints w' =
         (kept ++
          [([q_name data],
            if PrimFloat.eqb (q_right data) (q_left data)
            then NormalDistribution (q_central data) (q_right data)
            else AsymmetricNormalDistribution (q_central data)
                   (q_right data) (q_left data))])%list
    /\ (forall c, In c kept -> In c (constraints w)).
Proof.
  rewrite read_pdg_data_spec. eexists _, _. split; [reflexivity|].
  split; [reflexivity|].
  intros c. destruct (instances w !! q_name data); [|tauto].
  intros Hc. apply List.filter_In in Hc. tauto.
Qed.

(** C7, as amended: reading the same table twice leaves exactly one
    constraint under the mass name of every particle and under the
    lifetime name of every particle that has a lifetime, and never more
    than one under a name that had at most one before the first read (the
    lifetime name of a particle without a lifetime is not touched); each
    tuple overwrites the metadata of its name (registering the name only
    if it is new), removes the constraints stored under a registered name
    and then adds the fresh one. *)
Theorem read_pdg_twice (all : list Particle) (w0 w1 : World) :
  read_pdg latex_name_simplified all w0 = (Return tt, w1) ->
  exists w2,
    read_pdg latex_name_simplified all w1 = (Return tt, w2)
    /\ (forall particle fn,
          In particle (flavio_all all) -> flavio_name particle = Some fn ->
          ParameterConstraints.count ("m_" +:+ fn) w2 = 1
          /\ forall q, flavio_tau latex_name_simplified particle = Return (Some q) ->
               ParameterConstraints.count ("tau_" +:+ fn) w2 = 1)
    /\ (forall n, ParameterConstraints.count n w0 <= 1 ->
                  ParameterConstraints.count n w2 <= 1)
    /\ (forall data w,
          exists w',
            read_pdg_data data w = (Return tt, w')
            /\ instances w' =
                 <[q_name data :=
                     {| p_description := Some (q_description data);
                        p_tex := Some (q_tex data) |}]> (instances w)
            /\ (is_Some (instances w !! q_name data) ->
                constraints w' =
                  (List.filter
                     (fun c => negb (ParameterConstraints.has_key [q_name data] c))
                     (constraints w)
                   ++ [([q_name data], pdg_distribution data)])%list)
            /\ (instances w !! q_name data = None ->
                constraints w' =
                  (constraints w ++ [([q_name data], pdg_distribution data)])%list)).
Proof.
  unfold read_pdg. intros H1.
  destruct (for_each_read_pdg_particle_data _ _ _ _ H1) as [ds Hds].
  rewrite (for_each_read_pdg_particle_ok _ _ _ Hds) in H1.
  injection H1 as <-.
  exists (fold_left after_read_pdg_data ds (fold_left after_read_pdg_data ds w0)).
  split; [apply for_each_read_pdg_particle_ok, Hds|].
  assert (Hreg : forall m, In m (map q_name ds) ->
            is_Some (instances (fold_left after_read_pdg_data ds w0) !! m))
    by (intros m; apply instances_fold_in).
  split; [|split].
  - intros particle fn Hin Hn. split.
    + apply count_fold_in; [assumption|].
      eapply table_data_mass; eassumption.
    + intros q Hq. apply count_fold_in; [assumption|].
      eapply table_data_tau; eassumption.
  - intros n Hn.
    destruct (in_dec String.string_dec n (map q_name ds)) as [Hin | Hout].
    + rewrite count_fold_in by assumption. lia.
    + rewrite !count_fold_other by assumption. assumption.
  - intros data w. exists (after_read_pdg_data w data).
    split; [apply read_pdg_data_spec|]. split; [reflexivity|].
    simpl. split.
    + intros [p ->]. reflexivity.
    + intros ->. reflexivity.
Qed.

End ReadPdgTheorems.

(** ** The YAML readers *)

Lemma for_each_app {A} (l1 l2 : list A) (body : A -> M unit) (w : World) :
  for_each (l1 ++ l2) body w =
    match for_each l1 body w with
    | (Return _, w') => for_each l2 body w'
    | (Raise e, w') => (Raise e, w')
    end.
Proof.
  revert w. induction l1 as [|x l1 IH]; intros w; [reflexivity|].
  cbn [for_each app]. unfold bind.
  destruct (body x w) as [[[]|e] w']; [apply IH | reflexivity].
Qed.

Lemma for_fold_app {A S} (l1 l2 : list A) (body : S -> A -> M S) (s : S) (w : World) :
  for_fold (l1 ++ l2) body s w =
    match for_fold l1 body s w with
    | (Return s', w') => for_fold l2 body s' w'
    | (Raise e, w') => (Raise e, w')
    end.
Proof.
  revert s w. induction l1 as [|x l1 IH]; intros s w; [reflexivity|].
  cbn [for_fold app]. unfold bind.
  destruct (body s x w) as [[s'|e] w']; [apply IH | reflexivity].
Qed.

Lemma add_constraint_all_registered (names : list string) (d : Distribution) (w : World) :
  (forall n, In n names -> is_Some (instances w !! n)) ->
  ParameterConstraints.add_constraint names d w
  = (Return tt, with_constraints (fun cs => (cs ++ [(names, d)])%list) w).
Proof.
  intros H. unfold ParameterConstraints.add_constraint.
  replace (List.find (ParameterConstraints.unregistered w) names) with (@None string);
    [reflexivity|].
  symmetry. induction names as [|n names IH]; simpl; [reflexivity|].
  unfold ParameterConstraints.unregistered at 1.
  destruct (H n (or_introl eq_refl)) as [p Hp]. rewrite Hp.
  rewrite bool_decide_eq_false_2 by discriminate.
  apply IH. intros m Hm. apply H. right. exact Hm.
Qed.

(** *** The squared error *)

Section SquaredError.

Context {libc : Libm}.

Lemma add_squares_sum (symmetric : list float) (acc : float) :
  (forall s, In s symmetric -> PyFloat.pow2 s = Return (PyFloat.pow2_value s)) ->
  add_squares acc symmetric
  = Return (fold_left PrimFloat.add (map PyFloat.pow2_value symmetric) acc).
Proof.
  unfold add_squares. revert acc.
  induction symmetric as [|s l IH]; intros acc H; [reflexivity|].
  cbn [fold_left map rbind]. rewrite (H s (or_introl eq_refl)). cbn [rbind].
  apply IH. intros s' Hs'. apply H. right. exact Hs'.
Qed.

Lemma add_products_sum (asymmetric : list (float * float)) (acc : float) :
  add_products acc asymmetric
  = fold_left PrimFloat.add
      (map (fun a : float * float => (a.1 * a.2)%float) asymmetric) acc.
Proof.
  unfold add_products. revert acc.
  induction asymmetric as [|a l IH]; intros acc; [reflexivity|].
  cbn [fold_left map]. apply IH.
Qed.

Lemma total_error_sum (d : error_dict) :
  (forall s, In s (symmetric_errors d) ->
             PyFloat.pow2 s = Return (PyFloat.pow2_value s)) ->
  total_error d = PyFloat.sqrt (sum_floats (squared_error_terms d)).
Proof.
  intros H. unfold total_error, sum_floats, squared_error_terms.
  rewrite add_squares_sum by assumption. cbn [rbind].
  rewrite add_products_sum, fold_left_app. reflexivity.
Qed.

Lemma add_squares_raised (symmetric : list float) (e : exn) :
  fold_left
    (fun acc sym_err =>
       (squared_error <~ acc ;;
        sq <~ PyFloat.pow2 sym_err ;;
        Return (squared_error + sq)%float)%py)
    symmetric (Raise e) = Raise e.
Proof. induction symmetric as [|s l IH]; [reflexivity | exact IH]. Qed.

Lemma add_squares_returned (symmetric : list float) (acc x : float) :
  add_squares acc symmetric = Return x ->
  x = fold_left PrimFloat.add (map PyFloat.pow2_value symmetric) acc.
Proof.
  unfold add_squares. revert acc.
  induction symmetric as [|s l IH]; intros acc H.
  - injection H as <-. reflexivity.
  - cbn [fold_left map rbind] in *. unfold PyFloat.pow2 in H.
    destruct (PrimFloat.is_finite s && PrimFloat.is_infinity (PyFloat.pow2_value s));
      cbn [rbind] in H.
    + rewrite add_squares_raised in H. discriminate.
    + apply IH, H.
Qed.

(** Whenever a total error is returned, it is the square root of the sum. *)
Lemma total_error_returned (d : error_dict) (error : float) :
  total_error d = Return error ->
  error = PrimFloat.sqrt (sum_floats (squared_error_terms d)).
Proof.
  unfold total_error, sum_floats, squared_error_terms.
  destruct (add_squares 0%float (symmetric_errors d)) as [x|e] eqn:E;
    cbn [rbind]; [|discriminate].
  apply add_squares_returned in E. subst x.
  rewrite add_products_sum, fold_left_app. unfold PyFloat.sqrt.
  destruct PrimFloat.ltb; [discriminate|]. intros [= <-]. reflexivity.
Qed.

End SquaredError.

Section ReaderFacts.

Context {libc : Libm}.
Variable set_constraint : string -> yaml -> M unit.
Variable errors_from_string : yaml -> result error_dict.
Variable _fix_correlation_matrix : yaml -> nat -> result matrix.
Variable all_eigvals_positive : matrix -> result bool.
Variable str : matrix -> string.

Let read_value := read_correlated_value errors_from_string.
Let read_group :=
  read_correlated_group errors_from_string _fix_correlation_matrix
    all_eigvals_positive str.

(** The loop over the values of a group only reads the registry. *)
Lemma read_correlated_value_world locals dict_list (w : World) :
  (read_value locals dict_list w).2 = w.
Proof.
  unfold read_value, read_correlated_value.
  destruct locals as [[ns cs] es]. destruct dict_list as [|[n v] rest]; [reflexivity|].
  unfold bind, Registry.lookup, lift, ret.
  destruct (instances w !! n); [|reflexivity].
  destruct (errors_from_string v); [|reflexivity].
  destruct (total_error _); reflexivity.
Qed.

Lemma read_correlated_values_world vals locals (w : World) :
  (for_fold vals read_value locals w).2 = w.
Proof.
  revert locals. induction vals as [|v vals IH]; intros locals; [reflexivity|].
  cbn [for_fold]. unfold bind.
  pose proof (read_correlated_value_world locals v w) as Hw.
  destruct (read_value locals v w) as [[s'|e] w']; simpl in Hw; subst w';
    [apply IH | reflexivity].
Qed.

Lemma read_correlated_values_pair vals locals (w : World) r :
  (for_fold vals read_value locals w).1 = r ->
  for_fold vals read_value locals w = (r, w).
Proof.
  intros <-. rewrite <- (read_correlated_values_world vals locals w) at 3.
  destruct (for_fold vals read_value locals w). reflexivity.
Qed.

(** Every name the loop has collected is registered. *)
Lemma read_correlated_values_registered vals ns cs es ns' cs' es' (w : World) :
  (for_fold vals read_value (ns, cs, es) w).1 = Return (ns', cs', es') ->
  (forall n, In n ns -> is_Some (instances w !! n)) ->
  forall n, In n ns' -> is_Some (instances w !! n).
Proof.
  revert ns cs es. induction vals as [|v vals IH]; intros ns cs es H Hreg.
  - simpl in H. injection H as <- <- <-. exact Hreg.
  - cbn [for_fold] in H. unfold bind in H.
    pose proof (read_correlated_value_world (ns, cs, es) v w) as Hw.
    destruct (read_value (ns, cs, es) v w) as [[[[ns1 cs1] es1]|e] w'] eqn:E;
      simpl in Hw; subst w'; [|discriminate].
    eapply IH; [exact H|].
    unfold read_value, read_correlated_value in E.
    destruct v as [|[n v] rest]; [discriminate|].
    unfold bind, Registry.lookup, lift, ret in E.
    destruct (instances w !! n) eqn:En; [|discriminate].
    destruct (errors_from_string v); [|discriminate].
    destruct (total_error _); [|discriminate].
    injection E as <- <- <-.
    intros m Hm. apply in_app_or in Hm as [Hm | [<- | []]]; [auto | eauto].
Qed.

(** What a group does once its values have been read. *)
Lemma read_correlated_group_spec group (w : World) names centrals errors corr :
  (for_fold (values group) read_value ([], [], []) w).1
    = Return (names, centrals, errors) ->
  _fix_correlation_matrix (correlation group) (length names) = Return corr ->
  read_group group w =
    match checked_covariance all_eigvals_positive str errors corr with
    | Return covariance =>
        (Return tt,
         with_constraints
           (fun cs =>
              (cs ++ [(names, MultivariateNormalDistribution centrals covariance)])%list)
           w)
    | Raise e => (Raise e, w)
    end.
Proof.
  intros Hloop Hfix. unfold read_group, read_correlated_group. unfold bind at 1.
  fold read_value. rewrite (read_correlated_values_pair _ _ _ _ Hloop).
  unfold bind, lift. rewrite Hfix.
  destruct (checked_covariance all_eigvals_positive str errors corr); [|reflexivity].
  apply add_constraint_all_registered.
  eapply read_correlated_values_registered; [exact Hloop|]. intros n [].
Qed.

End ReaderFacts.

Lemma read_metadata_entry_frame (entry : string * gmap string (option string))
    (w : World) :
  exists w',
    read_metadata_entry entry w = (Return tt, w') /\ constraints w' = constraints w.
Proof.
  unfold read_metadata_entry, bind, Registry.create, Registry.set_description,
    Registry.set_tex, ret.
  destruct (instances w !! entry.1);
    destruct (entry.2 !! "description") as [[d|]|];
    destruct (entry.2 !! "tex") as [[t|]|];
    eexists; split; reflexivity.
Qed.

Section ReaderTheorems.

Context {libc : Libm}.
Variable set_constraint : string -> yaml -> M unit.
Variable errors_from_string : yaml -> result error_dict.
Variable _fix_correlation_matrix : yaml -> nat -> result matrix.
Variable all_eigvals_positive : matrix -> result bool.
Variable str : matrix -> string.

(** C4: the total error of a quantity is the square root of the sum,
    accumulated from zero, of the squares of its symmetric errors followed
    by the products of the two members of its asymmetric errors (when no
    square overflows and the sum is not negative, so that neither the
    power nor the square root raises); this is the error the loop over
    the values appends to [errors]. *)
Theorem total_error_formula (d : error_dict) :
  (forall s, In s (symmetric_errors d) ->
             PyFloat.pow2 s = Return (PyFloat.pow2_value s)) ->
  PrimFloat.ltb (sum_floats (squared_error_terms d)) 0%float = false ->
  total_error d = Return (PrimFloat.sqrt (sum_floats (squared_error_terms d)))
  /\ forall names centrals errors parameter_name value rest (w : World),
       is_Some (instances w !! parameter_name) ->
       errors_from_string value = Return d ->
       read_correlated_value errors_from_string (names, centrals, errors)
         ((parameter_name, value) :: rest) w
       = (Return ((names ++ [parameter_name])%list,
                  (centrals ++ [central_value d])%list,
                  (errors ++ [PrimFloat.sqrt (sum_floats (squared_error_terms d))])%list),
          w).
Proof.
  intros Hpow Hneg.
  assert (Ht : total_error d
               = Return (PrimFloat.sqrt (sum_floats (squared_error_terms d)))).
  { rewrite total_error_sum by assumption. unfold PyFloat.sqrt.
    rewrite Hneg. reflexivity. }
  split; [exact Ht|].
  intros names centrals errors parameter_name value rest w [p Hp] Hd.
  unfold read_correlated_value, bind, Registry.lookup, lift, ret.
  rewrite Hp, Hd, Ht. reflexivity.
Qed.

(** C3: when the covariance [outer(e, e) * M] built from the errors [e]
    and the fixed correlation matrix [M] passes the eigenvalue test, the
    group is stored with exactly that covariance; a covariance other than
    [outer(e, e) * M] is only ever produced after that one has failed the
    test, and is then the one rebuilt from [(M - I)*0.99 + I]. *)
Theorem positive_definite_covariance_kept (group : parameter_group) (w : World)
    (names : list string) (centrals errors : list float) (corr : matrix) :
  (for_fold (values group) (read_correlated_value errors_from_string)
     ([], [], []) w).1 = Return (names, centrals, errors) ->
  _fix_correlation_matrix (correlation group) (length names) = Return corr ->
  all_eigvals_positive (Np.multiply (Np.outer errors errors) corr) = Return true ->
  read_correlated_group errors_from_string _fix_correlation_matrix
    all_eigvals_positive str group w
  = (Return tt,
     with_constraints
       (fun cs =>
          (cs ++ [(names,
                   MultivariateNormalDistribution centrals
                     (Np.multiply (Np.outer errors errors) corr))])%list) w)
  /\ forall errors' corr' covariance,
       checked_covariance all_eigvals_positive str errors' corr' = Return covariance ->
       covariance <> Np.multiply (Np.outer errors' errors') corr' ->
       all_eigvals_positive (Np.multiply (Np.outer errors' errors') corr')
       = Return false
       /\ covariance
          = Np.multiply (Np.outer errors' errors')
              (Np.add
                 (Np.scale (Np.subtract corr' (Np.eye (length corr'))) 0.99%float)
                 (Np.eye (length corr'))).
Proof.
  intros Hloop Hfix Hpos. split.
  - rewrite (read_correlated_group_spec _ _ _ _ _ _ _ _ _ _ Hloop Hfix).
    unfold checked_covariance, covariance_of. rewrite Hpos. reflexivity.
  - clear Hloop Hfix Hpos. intros errors' corr' covariance.
    unfold checked_covariance, covariance_of, damp.
    destruct (all_eigvals_positive (Np.multiply (Np.outer errors' errors') corr'))
      as [[|]|e]; cbn [rbind]; [congruence | | discriminate].
    destruct (all_eigvals_positive _) as [[|]|e];
      cbn [rbind]; [|discriminate|discriminate].
    intros [= <-] _. split; reflexivity.
Qed.

(** C2: when the covariance built from the fixed correlation matrix fails
    the eigenvalue test, the correlation is replaced once by
    [(M - I)*0.99 + I] and the covariance rebuilt; the group is stored
    with the rebuilt covariance if that one passes the test, and
    otherwise the reader fails with an assertion error whose message ends
    with the rebuilt covariance, leaving the store as it was. *)
Theorem one_repair_pass (group : parameter_group) (w : World)
    (names : list string) (centrals errors : list float) (corr : matrix) :
  (for_fold (values group) (read_correlated_value errors_from_string)
     ([], [], []) w).1 = Return (names, centrals, errors) ->
  _fix_correlation_matrix (correlation group) (length names) = Return corr ->
  all_eigvals_positive (covariance_of errors corr) = Return false ->
  let repaired :=
    Np.add (Np.scale (Np.subtract corr (Np.eye (length corr))) 0.99%float)
      (Np.eye (length corr)) in
  let covariance := Np.multiply (Np.outer errors errors) repaired in
  read_correlated_group errors_from_string _fix_correlation_matrix
    all_eigvals_positive str group w
  = match all_eigvals_positive covariance with
    | Return true =>
        (Return tt,
         with_constraints
           (fun cs =>
              (cs ++ [(names, MultivariateNormalDistribution centrals covariance)])%list)
           w)
    | Return false =>
        (Raise (AssertionError
                  ("The covariance matrix is not positive definite!"
                   +:+ str covariance)), w)
    | Raise e => (Raise e, w)
    end.
Proof.
  intros Hloop Hfix Hneg repaired covariance.
  rewrite (read_correlated_group_spec _ _ _ _ _ _ _ _ _ _ Hloop Hfix).
  unfold checked_covariance. rewrite Hneg. cbn [rbind].
  fold repaired. change (covariance_of errors (damp corr)) with covariance.
  destruct (all_eigvals_positive covariance) as [[|]|e]; reflexivity.
Qed.

(** C8: an entry of a values file whose name is not registered makes the
    reader fail with the [KeyError] of the registry lookup, in the state
    reached before that entry: [set_constraint] is not called for it.
    Likewise a name of a correlated group that is not registered makes
    the correlated reader fail with that [KeyError] before
    [add_constraint] is called for the group. *)
Theorem unknown_parameter_rejected :
  (forall pre parameter_name value post (w w' : World),
      _read_yaml_object_values set_constraint pre w = (Return tt, w') ->
      instances w' !! parameter_name = None ->
      _read_yaml_object_values set_constraint
        (pre ++ (parameter_name, value) :: post) w
      = (Raise (KeyError parameter_name), w'))
  /\ (forall groups_before group groups_after values_before parameter_name value
             rest values_after locals (w w' : World),
        _read_yaml_object_values_correlated errors_from_string
          _fix_correlation_matrix all_eigvals_positive str groups_before w
        = (Return tt, w') ->
        values group
        = (values_before ++ ((parameter_name, value) :: rest) :: values_after)%list ->
        (for_fold values_before (read_correlated_value errors_from_string)
           ([], [], []) w').1 = Return locals ->
        instances w' !! parameter_name = None ->
        _read_yaml_object_values_correlated errors_from_string
          _fix_correlation_matrix all_eigvals_positive str
          (groups_before ++ group :: groups_after) w
        = (Raise (KeyError parameter_name), w')).
Proof.
  split.
  - intros pre parameter_name value post w w' Hpre Hnone.
    unfold _read_yaml_object_values in *. rewrite for_each_app, Hpre.
    cbn [for_each]. unfold bind at 1. unfold read_values_entry at 1.
    cbn [fst snd]. unfold bind, Registry.lookup. rewrite Hnone. reflexivity.
  - intros groups_before group groups_after values_before parameter_name value
      rest values_after locals w w' Hpre Hvalues Hloop Hnone.
    unfold _read_yaml_object_values_correlated in *. rewrite for_each_app, Hpre.
    cbn [for_each]. unfold bind at 1. unfold read_correlated_group at 1.
    unfold bind at 1. rewrite Hvalues, for_fold_app.
    rewrite (read_correlated_values_pair _ _ _ _ _ Hloop).
    cbn [for_fold]. unfold bind at 1.
    destruct locals as [[ns cs] es]. unfold read_correlated_value at 1.
    unfold bind at 1. unfold Registry.lookup. rewrite Hnone. reflexivity.
Qed.

(** C10: the metadata reader returns without touching the constraints.
    For each entry, the description of the parameter becomes the value of
    the ['description'] key when that key is present and not [None], and
    otherwise stays what it was (unset for a new parameter); likewise for
    ['tex']; no other parameter changes. *)
Theorem metadata_reader_frame
    (parameters : list (string * gmap string (option string))) (w : World) :
  (exists w',
     _read_yaml_object_metadata parameters w = (Return tt, w')
     /\ constraints w' = constraints w)
  /\ forall parameter_name info (w0 : World),
       let w1 := (read_metadata_entry (parameter_name, info) w0).2 in
       p_description <$> (instances w1 !! parameter_name)
       = Some match info !! "description" with
              | Some (Some description) => Some description
              | _ => instances w0 !! parameter_name ≫= p_description
              end
       /\ p_tex <$> (instances w1 !! parameter_name)
          = Some match info !! "tex" with
                 | Some (Some tex) => Some tex
                 | _ => instances w0 !! parameter_name ≫= p_tex
                 end
       /\ forall other, other <> parameter_name ->
            instances w1 !! other = instances w0 !! other.
Proof.
  split.
  - unfold _read_yaml_object_metadata. revert w.
    induction parameters as [|entry rest IH]; intros w.
    + exists w. split; reflexivity.
    + destruct (read_metadata_entry_frame entry w) as (w1 & Hrun & Hc).
      destruct (IH w1) as (w2 & Hrest & Hc2).
      exists w2. cbn [for_each]. unfold bind. rewrite Hrun.
      split; [exact Hrest | congruence].
  - intros parameter_name info w0.
    unfold read_metadata_entry, bind, Registry.create, Registry.set_description,
      Registry.set_tex, ret. cbn [fst snd].
    destruct (instances w0 !! parameter_name) as [p|] eqn:E;
      destruct (info !! "description") as [[d|]|];
      destruct (info !! "tex") as [[t|]|]; cbn -[lookup];
      rewrite ?lookup_alter, ?lookup_insert, ?decide_True by reflexivity;
      rewrite ?E; cbn -[lookup];
      (split; [reflexivity|]); (split; [reflexivity|]);
      intros other Hne;
      rewrite ?lookup_alter, ?lookup_insert, ?decide_False by congruence;
      reflexivity.
Qed.

End ReaderTheorems.

(** ** The statements on concrete data *)

Import Examples.

Section AnyLibrary.

Context {libc : Libm}.

(** The lifetime of [B0] does not depend on the C library: its rescaled
    width is [1.0], whose square the interpreter decides itself. *)
Example flavio_tau_B0 :
  flavio_tau latex_name B0 =
    Return (Some {| q_name := "tau_B0"; q_tex := "$\tau_{B^{0}}$";
                    q_description := "$B^{0}$ lifetime";
                    q_central := 1%float; q_right := 0.1%float;
                    q_left := 0.2%float |}).
Proof. vm_compute. reflexivity. Qed.

End AnyLibrary.

Section Statements.

#[local] Existing Instance libm.

(** C1 as stated fails: for [G = 1.0], [G_right = 0.1], [G_left = 0.2] the
    right uncertainty returned is [0.1], not [G_left/G**2 = 0.2]; and a
    nonzero width whose square underflows makes the division raise. *)
Lemma flavio_tau_swapped_sides_counterexample :
  G_of 1000 = 1%float /\ G_of 100 = 0.1%float /\ G_of 200 = 0.2%float
  /\ ~ (exists q,
          flavio_tau latex_name B0 = Return (Some q)
          /\ q_central q = (1 / G_of 1000)%float
          /\ q_right q = (G_of 200 / PyFloat.pow2_value (G_of 1000))%float
          /\ q_left q = (G_of 100 / PyFloat.pow2_value (G_of 1000))%float)
  /\ flavio_tau latex_name B0_tiny_width = Raise ZeroDivisionError.
Proof.
  split; [vm_compute; reflexivity|].
  split; [vm_compute; reflexivity|].
  split; [vm_compute; reflexivity|].
  split; [|vm_compute; reflexivity].
  intros (q & Hq & _ & Hr & _).
  vm_compute in Hq. injection Hq as <-.
  apply (f_equal (fun x => PrimFloat.eqb x 0.1%float)) in Hr.
  vm_compute in Hr. discriminate Hr.
Qed.

(** The two cases of C6 on the numbers of the specification. *)
Example pdg_distribution_symmetric :
  pdg_distribution
    {| q_name := "m_B0"; q_tex := ""; q_description := "";
       q_central := 1%float; q_right := 0.1%float; q_left := 0.1%float |}
  = NormalDistribution 1%float 0.1%float.
Proof. vm_compute. reflexivity. Qed.

Example pdg_distribution_asymmetric :
  pdg_distribution
    {| q_name := "m_B0"; q_tex := ""; q_description := "";
       q_central := 1%float; q_right := 0.1%float; q_left := 0.2%float |}
  = AsymmetricNormalDistribution 1%float 0.1%float 0.2%float.
Proof. vm_compute. reflexivity. Qed.

(** One damping pass leaves the unit diagonal and multiplies the other
    entries by [0.99]. *)
Example damp_example :
  damp (group_correlation 0.5%float)
  = [[1%float; 0.495%float]; [0.495%float; 1%float]].
Proof. vm_compute. reflexivity. Qed.

(** A correlation of one is repaired by the single pass. *)
Example repaired_group_example :
  read_correlated_group errors_from_string _fix_correlation_matrix
    all_eigvals_positive str (group 1%float) (registered ["a"; "b"])
  = (Return tt,
     with_constraints
       (fun cs =>
          (cs ++ [(["a"; "b"],
                   MultivariateNormalDistribution [1%float; 2%float]
                     (covariance_of group_errors (damp (group_correlation 1%float))))])%list)
       (registered ["a"; "b"])).
Proof. vm_compute. reflexivity. Qed.

Lemma flavio_tau_keeps_sides_witness :
  flavio_tau latex_name B0 =
    Return (Some {| q_name := "tau_B0"; q_tex := "$\tau_{B^{0}}$";
                    q_description := "$B^{0}$ lifetime";
                    q_central := 1%float; q_right := 0.1%float;
                    q_left := 0.2%float |}).
Proof.
  exact (flavio_tau_keeps_sides latex_name B0 "B0" 1000%float 100%float 200%float
           eq_refl eq_refl eq_refl eq_refl eq_refl eq_refl eq_refl eq_refl).
Defined.

Lemma flavio_tau_zero_uncertainty_witness :
  flavio_tau latex_name B0_zero_upper = Return None.
Proof.
  exact (proj1 (flavio_tau_zero_uncertainty latex_name B0_zero_upper
                  1000%float 0%float eq_refl eq_refl eq_refl (or_introl eq_refl))).
Defined.

Lemma read_pdg_skips_undefined_lifetime_witness :
  flavio_tau latex_name B0_no_width = Return None
  /\ exists m w',
       flavio_m latex_name B0_no_width = Return m
       /\ read_pdg_particle latex_name B0_no_width empty_world = (Return tt, w')
       /\ last (constraints w') = Some (["m_B0"], pdg_distribution m)
       /\ ParameterConstraints.count "tau_B0" w' = 0.
Proof.
  destruct (read_pdg_skips_undefined_lifetime latex_name B0_no_width
              (or_introl eq_refl)) as [Htau Hrun].
  split; [exact Htau|].
  destruct (Hrun "B0" empty_world eq_refl) as (m & w' & Hm & Hw' & Hlast & _ & Hcount & _).
  exists m, w'. repeat split; assumption.
Defined.

Lemma read_pdg_twice_witness :
  exists w2,
    read_pdg latex_name [B0] (read_pdg latex_name [B0] empty_world).2 = (Return tt, w2)
    /\ ParameterConstraints.count "m_B0" w2 = 1
    /\ ParameterConstraints.count "tau_B0" w2 = 1.
Proof.
  assert (H1 : read_pdg latex_name [B0] empty_world
               = (Return tt, (read_pdg latex_name [B0] empty_world).2))
    by (vm_compute; reflexivity).
  destruct (read_pdg_twice latex_name [B0] empty_world _ H1)
    as (w2 & Hrun & Hcount & _).
  exists w2. split; [exact Hrun|].
  assert (Hin : In B0 (flavio_all [B0])) by (vm_compute; auto).
  destruct (Hcount B0 "B0" Hin eq_refl) as [Hm Htau].
  split; [exact Hm|].
  eapply Htau. vm_compute. reflexivity.
Defined.

(** C7 as stated fails for a particle without a lifetime: [read_pdg]
    never touches its lifetime name, so two constraints stored under that
    name beforehand (by two calls of [add_constraint]) are both still
    there after the table has been read twice. *)
Lemma read_pdg_twice_stale_lifetime_counterexample :
  (ParameterConstraints.add_constraint ["tau_B0"]
     (NormalDistribution 1%float 0.1%float) ;;;
   ParameterConstraints.add_constraint ["tau_B0"]
     (NormalDistribution 1%float 0.2%float))%py (registered ["tau_B0"])
  = (Return tt, two_lifetime_constraints)
  /\ flavio_tau latex_name B0_no_width = Return None
  /\ exists w1 w2,
       read_pdg latex_name [B0_no_width] two_lifetime_constraints = (Return tt, w1)
       /\ read_pdg latex_name [B0_no_width] w1 = (Return tt, w2)
       /\ ParameterConstraints.count "m_B0" w2 = 1
       /\ ParameterConstraints.count "tau_B0" w2 = 2.
Proof.
  split; [vm_compute; reflexivity|].
  split; [vm_compute; reflexivity|].
  exists (read_pdg latex_name [B0_no_width] two_lifetime_constraints).2.
  exists (read_pdg latex_name [B0_no_width]
            (read_pdg latex_name [B0_no_width] two_lifetime_constraints).2).2.
  repeat split; vm_compute; reflexivity.
Qed.

Lemma total_error_formula_witness :
  total_error error_dict_b
  = Return (PrimFloat.sqrt (0 + 0.5 * 0.5 + 0.2 * 0.8)%float).
Proof.
  refine (proj1 (total_error_formula errors_from_string error_dict_b _ _)).
  - intros s [<- | []]. vm_compute. reflexivity.
  - vm_compute. reflexivity.
Defined.

Lemma positive_definite_covariance_kept_witness :
  read_correlated_group errors_from_string _fix_correlation_matrix
    all_eigvals_positive str (group 0.5%float) (registered ["a"; "b"])
  = (Return tt,
     with_constraints
       (fun cs =>
          (cs ++ [(["a"; "b"],
                   MultivariateNormalDistribution [1%float; 2%float]
                     (Np.multiply (Np.outer group_errors group_errors)
                        (group_correlation 0.5%float)))])%list)
       (registered ["a"; "b"])).
Proof.
  refine (proj1 (positive_definite_covariance_kept errors_from_string
                   _fix_correlation_matrix all_eigvals_positive str
                   (group 0.5%float) (registered ["a"; "b"])
                   ["a"; "b"] [1%float; 2%float] group_errors
                   (group_correlation 0.5%float) _ _ _));
    vm_compute; reflexivity.
Defined.

Lemma one_repair_pass_witness :
  read_correlated_group errors_from_string _fix_correlation_matrix
    all_eigvals_positive str (group 1.5%float) (registered ["a"; "b"])
  = (Raise (AssertionError "The covariance matrix is not positive definite![...]"),
     registered ["a"; "b"]).
Proof.
  refine (eq_trans
            (one_repair_pass errors_from_string _fix_correlation_matrix
               all_eigvals_positive str (group 1.5%float) (registered ["a"; "b"])
               ["a"; "b"] [1%float; 2%float] group_errors
               (group_correlation 1.5%float) _ _ _) _);
    vm_compute; reflexivity.
Defined.

Lemma unknown_parameter_rejected_witness :
  _read_yaml_object_values set_constraint
    [("a", YFloat 1%float); ("zz", YFloat 2%float); ("b", YFloat 3%float)]
    (registered ["a"; "b"])
  = (Raise (KeyError "zz"),
     with_constraints (fun _ => [(["a"], NormalDistribution 1%float 1%float)])
       (registered ["a"; "b"]))
  /\ _read_yaml_object_values_correlated errors_from_string _fix_correlation_matrix
       all_eigvals_positive str [group 0.5%float; group_unknown; group 0.5%float]
       (registered ["a"; "b"])
     = (Raise (KeyError "zz"),
        with_constraints
          (fun _ =>
             [(["a"; "b"],
               MultivariateNormalDistribution [1%float; 2%float]
                 (covariance_of group_errors (group_correlation 0.5%float)))])
          (registered ["a"; "b"])).
Proof.
  destruct (unknown_parameter_rejected set_constraint errors_from_string
              _fix_correlation_matrix all_eigvals_positive str) as [Hvalues Hcorrelated].
  split.
  - refine (Hvalues [("a", YFloat 1%float)] "zz" (YFloat 2%float)
              [("b", YFloat 3%float)] (registered ["a"; "b"]) _ _ _);
      vm_compute; reflexivity.
  - refine (Hcorrelated [group 0.5%float] group_unknown [group 0.5%float]
              [[("a", YStr "1.0 +- 0.3 +- 0.4")]] "zz" (YStr "1.0 +- 0.3 +- 0.4")
              [] [] (["a"], [1%float], [0.5%float]) (registered ["a"; "b"]) _ _ _ _ _);
      vm_compute; reflexivity.
Defined.

End Statements.

(** ** Further properties: the names of particles *)

Lemma PDG_PARTICLES_dict_inverted :
  forallb
    (fun kv : string * Z => bool_decide (_pdg_particles_inv !! kv.2 = Some kv.1))
    (map_to_list PDG_PARTICLES_dict) = true.
Proof. vm_compute. reflexivity. Qed.

Lemma _pdg_particles_inv_inverted :
  forallb
    (fun kv : Z * string => bool_decide (PDG_PARTICLES_dict !! kv.2 = Some kv.1))
    (map_to_list _pdg_particles_inv) = true.
Proof. vm_compute. reflexivity. Qed.

Lemma PDG_PARTICLES_inverse (n : string) (i : Z) :
  PDG_PARTICLES_dict !! n = Some i <-> _pdg_particles_inv !! i = Some n.
Proof.
  split; intros H.
  - apply elem_of_map_to_list, list_elem_of_In in H.
    pose proof (proj1 (forallb_forall _ _) PDG_PARTICLES_dict_inverted _ H) as Hb.
    apply bool_decide_eq_true in Hb. exact Hb.
  - apply elem_of_map_to_list, list_elem_of_In in H.
    pose proof (proj1 (forallb_forall _ _) _pdg_particles_inv_inverted _ H) as Hb.
    apply bool_decide_eq_true in Hb. exact Hb.
Qed.

(** X1: [from_flavio_name] and [flavio_name] are inverse to each other:
    the particle found for a flavio name has that flavio name, a particle
    with a flavio name is looked up under its own identifier, and a name
    that is not in [PDG_PARTICLES] raises [KeyError]. *)
Theorem from_flavio_name_round_trip (from_pdgid : Z -> result Particle) :
  (forall id p, from_pdgid id = Return p -> pdgid p = id) ->
  (forall n p,
      FlavioParticle.from_flavio_name from_pdgid n = Return p ->
      flavio_name p = Some n)
  /\ (forall p n,
        flavio_name p = Some n ->
        FlavioParticle.from_flavio_name from_pdgid n = from_pdgid (pdgid p))
  /\ (forall n,
        (forall p, flavio_name p <> Some n) ->
        FlavioParticle.from_flavio_name from_pdgid n = Raise (KeyError n)).
Proof.
  intros Hid. unfold FlavioParticle.from_flavio_name, flavio_name.
  split; [|split].
  - intros n p. destruct (PDG_PARTICLES_dict !! n) as [i|] eqn:E; [|discriminate].
    intros Hp. rewrite (Hid _ _ Hp). apply PDG_PARTICLES_inverse, E.
  - intros p n Hn. apply PDG_PARTICLES_inverse in Hn. rewrite Hn. reflexivity.
  - intros n Hnone. destruct (PDG_PARTICLES_dict !! n) as [i|] eqn:E; [|reflexivity].
    apply PDG_PARTICLES_inverse in E.
    destruct (Hnone {| pdgid := i; name := ""; latex_name := "";
                       mass := 0%float; mass_upper := 0%float; mass_lower := 0%float;
                       width := None; width_upper := None; width_lower := None |}).
    exact E.
Qed.

Lemma derived_name_inj (prefix a b : string) : prefix +:+ a = prefix +:+ b -> a = b.
Proof.
  induction prefix as [|c prefix IH]; cbn; [tauto|].
  intros [= H]. apply IH, H.
Qed.

(** X2: particles with different identifiers never share a flavio name, so
    the names of their mass and lifetime parameters are four different
    names. *)
Theorem derived_names_distinct (p q : Particle) (fp fq : string) :
  flavio_name p = Some fp -> flavio_name q = Some fq ->
  pdgid p <> pdgid q ->
  fp <> fq
  /\ NoDup ["m_" +:+ fp; "tau_" +:+ fp; "m_" +:+ fq; "tau_" +:+ fq].
Proof.
  intros Hp Hq Hne.
  assert (Hf : fp <> fq).
  { intros ->. apply Hne. unfold flavio_name in *.
    apply PDG_PARTICLES_inverse in Hp, Hq. congruence. }
  split; [exact Hf|].
  assert (Hm : "m_" +:+ fp <> "m_" +:+ fq)
    by (intros H; apply derived_name_inj in H; contradiction).
  assert (Ht : "tau_" +:+ fp <> "tau_" +:+ fq)
    by (intros H; apply derived_name_inj in H; contradiction).
  repeat constructor; rewrite ?elem_of_cons, ?elem_of_nil; cbn in *;
    intuition (try discriminate; try congruence).
Qed.

(** ** Further properties: the PDG reader *)





Lemma constraints_after_kept (w : World) (d : Quantity) (c : Constraint) :
  In c (constraints w) ->
  ParameterConstraints.has_key [q_name d] c = false ->
  In c (constraints (after_read_pdg_data w d)).
Proof.
  intros Hin Hkey. simpl. apply in_or_app. left.
  destruct (instances w !! q_name d); [|exact Hin].
  apply List.filter_In. rewrite Hkey. auto.
Qed.

Lemma constraints_fold_kept (ds : list Quantity) (w : World) (c : Constraint) :
  In c (constraints w) ->
  (forall d, In d ds -> ParameterConstraints.has_key [q_name d] c = false) ->
  In c (constraints (fold_left after_read_pdg_data ds w)).
Proof.
  revert w. induction ds as [|d ds IH]; intros w Hin Hkey; [exact Hin|].
  cbn [fold_left]. apply IH.
  - apply constraints_after_kept; [exact Hin|]. apply Hkey. left. reflexivity.
  - intros d' Hd'. apply Hkey. right. exact Hd'.
Qed.

Lemma instances_fold_other (ds : list Quantity) (w : World) (n : string) :
  ~ In n (map q_name ds) ->
  instances (fold_left after_read_pdg_data ds w) !! n = instances w !! n.
Proof.
  revert w. induction ds as [|d ds IH]; intros w H; [reflexivity|].
  cbn [fold_left]. simpl in H. rewrite IH by tauto.
  apply instances_after_other. intros ->. tauto.
Qed.

Lemma instances_fold_written (ds : list Quantity) (w : World) (n : string) :
  In n (map q_name ds) ->
  exists d,
    In d ds /\ q_name d = n
    /\ instances (fold_left after_read_pdg_data ds w) !! n
       = Some {| p_description := Some (q_description d); p_tex := Some (q_tex d) |}.
Proof.
  revert w. induction ds as [|d ds IH]; intros w H; [destruct H|].
  cbn [fold_left].
  destruct (in_dec String.string_dec n (map q_name ds)) as [Hin | Hout].
  - destruct (IH (after_read_pdg_data w d) Hin) as (d' & Hd' & Hn & Hl).
    exists d'. split; [right; exact Hd' | auto].
  - destruct H as [<- | H]; [|contradiction].
    exists d. split; [left; reflexivity|]. split; [reflexivity|].
    rewrite instances_fold_other by exact Hout. simpl. apply lookup_insert_eq.
Qed.

Lemma has_key_two_names (n a b : string) (c : Constraint) :
  a <> b -> In a c.1 -> In b c.1 -> ParameterConstraints.has_key [n] c = false.
Proof.
  intros Hne Ha Hb. unfold ParameterConstraints.has_key.
  apply bool_decide_eq_false. intros E.
  assert (Hin : forall x, In x c.1 -> x = n).
  { intros x Hx. apply list_elem_of_In in Hx.
    apply (elem_of_list_to_set (C := gset string)) in Hx. rewrite E in Hx.
    simpl in Hx. apply elem_of_union in Hx as [Hx | Hx].
    - apply elem_of_singleton in Hx. exact Hx.
    - apply not_elem_of_empty in Hx. destruct Hx. }
  apply Hne. rewrite (Hin a Ha), (Hin b Hb). reflexivity.
Qed.

Section ReadPdgMore.

Context {libc : Libm}.
Variable latex_name_simplified : Particle -> string.

Lemma particle_data_names (particle : Particle) (ds : list Quantity) (n : string) :
  particle_data latex_name_simplified particle = Return ds ->
  In n (map q_name ds) ->
  exists fn, flavio_name particle = Some fn
             /\ (n = "m_" +:+ fn \/ n = "tau_" +:+ fn).
Proof.
  unfold particle_data, flavio_m. intros H Hin.
  destruct (flavio_name particle) as [fn|] eqn:Hn; cbn [str_add rbind] in H;
    [|discriminate].
  exists fn. split; [reflexivity|].
  destruct (flavio_tau latex_name_simplified particle) as [[q|]|e] eqn:Hq;
    cbn [rbind] in H; [| |discriminate]; injection H as <-.
  - destruct Hin as [<- | [<- | []]]; [left; reflexivity|].
    right. eapply flavio_tau_name; eassumption.
  - destruct Hin as [<- | []]. left. reflexivity.
Qed.

Lemma table_data_names (particles : list Particle) (ds : list Quantity) (n : string) :
  table_data latex_name_simplified particles = Return ds ->
  In n (map q_name ds) ->
  exists particle fn,
    In particle particles /\ flavio_name particle = Some fn
    /\ (n = "m_" +:+ fn \/ n = "tau_" +:+ fn).
Proof.
  revert ds. induction particles as [|p rest IH]; intros ds H Hin.
  - injection H as <-. destruct Hin.
  - apply table_data_cons in H as (d & d' & Hd & Hd' & ->).
    rewrite map_app in Hin. apply in_app_or in Hin as [Hin | Hin].
    + destruct (particle_data_names _ _ _ Hd Hin) as (fn & Hn & Hor).
      exists p, fn. split; [left; reflexivity | auto].
    + destruct (IH _ Hd' Hin) as (particle & fn & Hp & Hn & Hor).
      exists particle, fn. split; [right; exact Hp | auto].
Qed.


(** X4: [read_pdg] only touches the names it writes.  A stored constraint
    whose key is not the mass or lifetime name of a particle of the table
    is kept, in particular every constraint on two or more names; and a
    name that is not such a mass or lifetime name keeps its registry entry
    and its number of constraints. *)
Theorem read_pdg_frame (all : list Particle) (w0 w1 : World) :
  read_pdg latex_name_simplified all w0 = (Return tt, w1) ->
  (forall c,
      In c (constraints w0) ->
      (forall particle fn,
          In particle (flavio_all all) -> flavio_name particle = Some fn ->
          ParameterConstraints.has_key ["m_" +:+ fn] c = false
          /\ ParameterConstraints.has_key ["tau_" +:+ fn] c = false) ->
      In c (constraints w1))
  /\ (forall c a b,
        In c (constraints w0) -> a <> b -> In a c.1 -> In b c.1 ->
        In c (constraints w1))
  /\ (forall n,
        (forall particle fn,
            In particle (flavio_all all) -> flavio_name particle = Some fn ->
            n <> "m_" +:+ fn /\ n <> "tau_" +:+ fn) ->
        instances w1 !! n = instances w0 !! n
        /\ ParameterConstraints.count n w1 = ParameterConstraints.count n w0).
Proof.
  unfold read_pdg. intros H1.
  destruct (for_each_read_pdg_particle_data _ _ _ _ H1) as [ds Hds].
  rewrite (for_each_read_pdg_particle_ok _ _ _ Hds) in H1.
  injection H1 as <-.
  split; [|split].
  - intros c Hin Hkeys. apply constraints_fold_kept; [exact Hin|].
    intros d Hd.
    destruct (table_data_names _ _ (q_name d) Hds (in_map q_name _ _ Hd))
      as (particle & fn & Hp & Hn & [Hm | Ht]).
    + rewrite Hm. exact (proj1 (Hkeys particle fn Hp Hn)).
    + rewrite Ht. exact (proj2 (Hkeys particle fn Hp Hn)).
  - intros c a b Hin Hne Ha Hb. apply constraints_fold_kept; [exact Hin|].
    intros d _. eapply has_key_two_names; eassumption.
  - intros n Hn.
    assert (Hout : ~ In n (map q_name ds)).
    { intros Hin.
      destruct (table_data_names _ _ _ Hds Hin) as (particle & fn & Hp & Hf & Hor).
      destruct (Hn particle fn Hp Hf) as [Hm Ht]. destruct Hor; contradiction. }
    split; [apply instances_fold_other | apply count_fold_other]; exact Hout.
Qed.

(** X5: after [read_pdg] has returned, the mass name of every particle of
    the table is registered with a description and a label, and so is the
    lifetime name of every particle that has a lifetime. *)
Theorem read_pdg_registers_metadata (all : list Particle) (w0 w1 : World) :
  read_pdg latex_name_simplified all w0 = (Return tt, w1) ->
  forall particle fn,
    In particle (flavio_all all) -> flavio_name particle = Some fn ->
    (exists p, instances w1 !! ("m_" +:+ fn) = Some p
               /\ is_Some (p_description p) /\ is_Some (p_tex p))
    /\ forall q,
         flavio_tau latex_name_simplified particle = Return (Some q) ->
         exists p, instances w1 !! ("tau_" +:+ fn) = Some p
                   /\ is_Some (p_description p) /\ is_Some (p_tex p).
Proof.
  unfold read_pdg. intros H1.
  destruct (for_each_read_pdg_particle_data _ _ _ _ H1) as [ds Hds].
  rewrite (for_each_read_pdg_particle_ok _ _ _ Hds) in H1.
  injection H1 as <-.
  intros particle fn Hin Hn. split.
  - destruct (instances_fold_written ds w0 ("m_" +:+ fn)) as (d & _ & _ & Hl).
    { eapply table_data_mass; eassumption. }
    eexists. split; [exact Hl|]. simpl. eauto.
  - intros q Hq.
    destruct (instances_fold_written ds w0 ("tau_" +:+ fn)) as (d & _ & _ & Hl).
    { eapply table_data_tau; eassumption. }
    eexists. split; [exact Hl|]. simpl. eauto.
Qed.

End ReadPdgMore.

(** ** Further properties: the registered names of stored constraints *)

Lemma for_each_invariant {A} (P : World -> Prop) (body : A -> M unit) (l : list A) :
  (forall x w, P w -> P (body x w).2) ->
  forall w, P w -> P (for_each l body w).2.
Proof.
  intros Hbody. induction l as [|x l IH]; intros w Hw; [exact Hw|].
  cbn [for_each]. unfold bind. specialize (Hbody x w Hw).
  destruct (body x w) as [[[]|e] w1]; simpl in *; [apply IH, Hbody | exact Hbody].
Qed.

Lemma for_each_raised {A} (body : A -> M unit) (l : list A) (e : exn) (w w' : World) :
  for_each l body w = (Raise e, w') ->
  exists done_ failing rest w1,
    l = (done_ ++ failing :: rest)%list
    /\ for_each done_ body w = (Return tt, w1)
    /\ body failing w1 = (Raise e, w').
Proof.
  revert w. induction l as [|x l IH]; intros w H; [discriminate|].
  cbn [for_each] in H. unfold bind in H.
  destruct (body x w) as [[[]|e1] w1] eqn:E.
  - destruct (IH _ H) as (done_ & failing & rest & w2 & -> & Hdone & Hfail).
    exists (x :: done_), failing, rest, w2. split; [reflexivity|].
    split; [|exact Hfail]. cbn [for_each]. unfold bind. rewrite E. exact Hdone.
  - injection H as <- <-. exists [], x, l, w. auto.
Qed.

Lemma names_registered_after (w : World) (d : Quantity) :
  names_registered w -> names_registered (after_read_pdg_data w d).
Proof.
  intros H c n Hc Hn. simpl in Hc. apply in_app_or in Hc as [Hc | [<- | []]].
  - apply instances_after. apply (H c n); [|exact Hn].
    destruct (instances w !! q_name d); [|exact Hc].
    apply List.filter_In in Hc. tauto.
  - destruct Hn as [<- | []]. simpl. rewrite lookup_insert_eq. eauto.
Qed.

Lemma names_registered_fold (ds : list Quantity) (w : World) :
  names_registered w -> names_registered (fold_left after_read_pdg_data ds w).
Proof.
  revert w. induction ds as [|d ds IH]; intros w H; [exact H|].
  cbn [fold_left]. apply IH, names_registered_after, H.
Qed.

Lemma names_registered_append (w : World) (names : list string) (d : Distribution) :
  names_registered w ->
  (forall n, In n names -> is_Some (instances w !! n)) ->
  names_registered (with_constraints (fun cs => (cs ++ [(names, d)])%list) w).
Proof.
  intros H Hreg c n Hc Hn. simpl in *. apply in_app_or in Hc as [Hc | [<- | []]].
  - apply (H c n); assumption.
  - apply Hreg, Hn.
Qed.

Lemma count_zero_unregistered (w : World) (n : string) :
  names_registered w -> instances w !! n = None ->
  ParameterConstraints.count n w = 0.
Proof.
  intros H Hnone. unfold ParameterConstraints.count.
  destruct (List.filter (ParameterConstraints.has_key [n]) (constraints w))
    as [|c l] eqn:E; [reflexivity|].
  assert (Hc : In c (List.filter (ParameterConstraints.has_key [n]) (constraints w)))
    by (rewrite E; left; reflexivity).
  apply List.filter_In in Hc as [Hc Hkey].
  unfold ParameterConstraints.has_key in Hkey. apply bool_decide_eq_true in Hkey.
  assert (Hn : n ∈ c.1).
  { apply (elem_of_list_to_set (C := gset string)). rewrite Hkey. simpl.
    apply elem_of_union_l, elem_of_singleton. reflexivity. }
  apply list_elem_of_In in Hn. destruct (H c n Hc Hn) as [p Hp]. congruence.
Qed.

Lemma count_after_new (w : World) (d : Quantity) :
  names_registered w -> instances w !! q_name d = None ->
  ParameterConstraints.count (q_name d) (after_read_pdg_data w d) = 1.
Proof.
  intros H Hnone.
  pose proof (count_zero_unregistered w (q_name d) H Hnone) as Hzero.
  unfold ParameterConstraints.count, after_read_pdg_data in *. simpl.
  rewrite Hnone, List.filter_app, length_app, Hzero. simpl.
  rewrite (proj2 (has_key_single _ _ _) eq_refl). reflexivity.
Qed.

Lemma count_fold_wf (ds : list Quantity) (w : World) (n : string) :
  names_registered w -> In n (map q_name ds) ->
  ParameterConstraints.count n (fold_left after_read_pdg_data ds w) = 1.
Proof.
  revert w. induction ds as [|d ds IH]; intros w Hwf H; [destruct H|].
  cbn [fold_left].
  destruct (in_dec String.string_dec n (map q_name ds)) as [Hin | Hout].
  - apply IH; [apply names_registered_after, Hwf | exact Hin].
  - destruct H as [<- | H]; [|contradiction].
    rewrite count_fold_other by exact Hout.
    destruct (instances w !! q_name d) eqn:E.
    + apply count_after_same. eauto.
    + apply count_after_new; assumption.
Qed.

Section ReadPdgInvariant.

Context {libc : Libm}.
Variable latex_name_simplified : Particle -> string.

Lemma names_registered_read_pdg (all : list Particle) (w : World) :
  names_registered w -> names_registered (read_pdg latex_name_simplified all w).2.
Proof.
  unfold read_pdg. apply for_each_invariant. clear w. intros particle w Hw.
  rewrite read_pdg_particle_spec.
  destruct (particle_data latex_name_simplified particle); simpl;
    [apply names_registered_fold, Hw | exact Hw].
Qed.

(** X7: a single [read_pdg] on a state in which every name of every stored
    constraint is registered leaves exactly one constraint under the mass
    name of every particle of the table and under the lifetime name of
    every particle that has a lifetime. *)
Theorem read_pdg_once (all : list Particle) (w0 w1 : World) :
  names_registered w0 ->
  read_pdg latex_name_simplified all w0 = (Return tt, w1) ->
  forall particle fn,
    In particle (flavio_all all) -> flavio_name particle = Some fn ->
    ParameterConstraints.count ("m_" +:+ fn) w1 = 1
    /\ forall q,
         flavio_tau latex_name_simplified particle = Return (Some q) ->
         ParameterConstraints.count ("tau_" +:+ fn) w1 = 1.
Proof.
  unfold read_pdg. intros Hwf H1.
  destruct (for_each_read_pdg_particle_data _ _ _ _ H1) as [ds Hds].
  rewrite (for_each_read_pdg_particle_ok _ _ _ Hds) in H1.
  injection H1 as <-.
  intros particle fn Hin Hn. split.
  - apply count_fold_wf; [exact Hwf|]. eapply table_data_mass; eassumption.
  - intros q Hq. apply count_fold_wf; [exact Hwf|].
    eapply table_data_tau; eassumption.
Qed.

(** X8: a particle whose upper and lower width uncertainties are the same
    number gets a symmetric lifetime constraint: when the float operations
    do not raise and the propagated uncertainty is not a NaN, the last
    constraint [read_pdg] adds for it is
    [NormalDistribution(1/G, G_right/G**2)] under its lifetime name. *)
Theorem symmetric_width_normal_lifetime (self : Particle) (fn : string)
    (w u : float) (world : World) :
  flavio_name self = Some fn ->
  width self = Some w -> width_upper self = Some u -> width_lower self = Some u ->
  PyFloat.is_zero w = false -> PyFloat.is_zero u = false ->
  lifetime_computable w = true ->
  PrimFloat.is_nan (G_of u / PyFloat.pow2_value (G_of w))%float = false ->
  exists world',
    read_pdg_particle latex_name_simplified self world = (Return tt, world')
    /\ last (constraints world')
       = Some (["tau_" +:+ fn],
               NormalDistribution (1 / G_of w)%float
                 (G_of u / PyFloat.pow2_value (G_of w))%float).
Proof.
  intros Hn Hw Hu Hl Zw Zu Hc Hnan.
  unfold lifetime_computable in Hc.
  apply andb_prop in Hc as [Hc Hov]. apply andb_prop in Hc as [HG HG2].
  apply negb_true_iff in HG, HG2, Hov.
  assert (Htau : flavio_tau latex_name_simplified self =
    Return (Some
      {| q_name := "tau_" +:+ fn;
         q_tex := "$\tau_{" +:+ latex_name_simplified self +:+ "}$";
         q_description := "$" +:+ latex_name_simplified self +:+ "$ lifetime";
         q_central := (1 / G_of w)%float;
         q_right := (G_of u / PyFloat.pow2_value (G_of w))%float;
         q_left := (G_of u / PyFloat.pow2_value (G_of w))%float |})).
  { unfold flavio_tau, width_undefined_or_zero.
    rewrite Hw, Hu, Hl, Hn. cbn [none_or_zero]. rewrite Zw, Zu.
    cbn [orb str_add rbind].
    unfold PyFloat.div, PyFloat.pow2. fold (G_of w) (G_of u).
    rewrite HG. cbn [rbind]. rewrite Hov. cbn [rbind]. rewrite HG2. reflexivity. }
  rewrite read_pdg_particle_spec. unfold particle_data, flavio_m.
  rewrite Hn, Htau. cbn [str_add rbind option_list fold_left].
  eexists. split; [reflexivity|].
  cbv [option_list option_rect]. cbn [fold_left]. unfold after_read_pdg_data at 1.
  cbn [constraints q_name].
  rewrite last_snoc. unfold pdg_distribution.
  cbn [q_right q_left q_central].
  unfold PrimFloat.is_nan in Hnan. apply negb_false_iff in Hnan.
  rewrite Hnan. reflexivity.
Qed.

End ReadPdgInvariant.

(** ** Further properties: the correlated reader *)

Lemma registered_after_metadata_entry
    (entry : string * gmap string (option string)) (w : World) (n : string) :
  is_Some (instances w !! n) ->
  is_Some (instances (read_metadata_entry entry w).2 !! n).
Proof.
  intros [p Hp].
  unfold read_metadata_entry, bind, Registry.create, Registry.set_description,
    Registry.set_tex, ret.
  destruct (instances w !! entry.1) eqn:E;
    destruct (entry.2 !! "description") as [[d|]|];
    destruct (entry.2 !! "tex") as [[t|]|]; cbn -[lookup];
    rewrite ?lookup_alter, ?lookup_insert; repeat case_decide; subst;
    rewrite ?Hp, ?E; cbn; eauto.
Qed.

Section CorrelatedReaderMore.

Context {libc : Libm}.
Variable errors_from_string : yaml -> result error_dict.
Variable _fix_correlation_matrix : yaml -> nat -> result matrix.
Variable all_eigvals_positive : matrix -> result bool.
Variable str : matrix -> string.

Lemma read_correlated_values_collected vals ns cs es ns' cs' es' (w : World) :
  (for_fold vals (read_correlated_value errors_from_string) (ns, cs, es) w).1
    = Return (ns', cs', es') ->
  ns' = (ns ++ first_keys vals)%list
  /\ length (first_keys vals) = length vals
  /\ length cs' = length cs + length vals
  /\ length es' = length es + length vals.
Proof.
  revert ns cs es. induction vals as [|v vals IH]; intros ns cs es H.
  - simpl in H. injection H as <- <- <-. rewrite app_nil_r. simpl.
    repeat split; lia.
  - cbn [for_fold] in H. unfold bind in H.
    pose proof (read_correlated_value_world errors_from_string (ns, cs, es) v w) as Hw.
    destruct (read_correlated_value errors_from_string (ns, cs, es) v w)
      as [[[[ns1 cs1] es1]|e] w1] eqn:E; simpl in Hw; subst w1; [|discriminate].
    apply IH in H as (-> & Hk & Hc & He).
    unfold read_correlated_value in E.
    destruct v as [|[n v] rest]; [discriminate|].
    unfold bind, Registry.lookup, lift, ret in E.
    destruct (instances w !! n); [|discriminate].
    destruct (errors_from_string v); [|discriminate].
    destruct (total_error _); [|discriminate].
    injection E as <- <- <-.
    rewrite !length_app in *. simpl in *. rewrite <- app_assoc. simpl.
    repeat split; try reflexivity; lia.
Qed.

(** One group either raises and leaves the state as it was, or appends one
    constraint. *)
Lemma read_correlated_group_outcome (group : parameter_group) (w : World) :
  (exists e,
      read_correlated_group errors_from_string _fix_correlation_matrix
        all_eigvals_positive str group w = (Raise e, w))
  \/ (exists central_values covariance,
        read_correlated_group errors_from_string _fix_correlation_matrix
          all_eigvals_positive str group w
        = (Return tt,
           with_constraints
             (fun cs =>
                (cs ++ [(first_keys (values group),
                         MultivariateNormalDistribution central_values covariance)])%list)
             w)
        /\ length central_values = length (values group)
        /\ length (first_keys (values group)) = length (values group)
        /\ forall n, In n (first_keys (values group)) -> is_Some (instances w !! n)).
Proof.
  remember (read_correlated_group errors_from_string _fix_correlation_matrix
              all_eigvals_positive str group w) as out eqn:Hout.
  unfold read_correlated_group in Hout. unfold bind at 1 in Hout.
  destruct (for_fold (values group) (read_correlated_value errors_from_string)
              ([], [], []) w).1 as [[[ns cs] es]|e] eqn:E;
    rewrite (read_correlated_values_pair _ _ _ _ _ E) in Hout;
    [|left; subst out; eauto].
  destruct (read_correlated_values_collected _ _ _ _ _ _ _ _ E)
    as (Hns & Hk & Hc & _). simpl in Hns, Hc. subst ns.
  assert (Hreg : forall n, In n (first_keys (values group)) ->
                           is_Some (instances w !! n)).
  { eapply read_correlated_values_registered; [exact E|]. intros n []. }
  unfold bind, lift in Hout.
  destruct (_fix_correlation_matrix _ _) as [corr|e]; [|left; subst out; eauto].
  destruct (checked_covariance _ _ _ _) as [cov|e]; [|left; subst out; eauto].
  right. exists cs, cov.
  rewrite add_constraint_all_registered in Hout by exact Hreg. subst out. auto.
Qed.

(** X9: when the correlated reader returns, the registry is unchanged and
    the store has gained exactly one constraint per group, in the order of
    the file: the constraint of a group is a multivariate normal
    distribution on the first keys of its values, with as many central
    values as names. *)
Theorem correlated_reader_appends (list_ : list parameter_group) (w w' : World) :
  _read_yaml_object_values_correlated errors_from_string _fix_correlation_matrix
    all_eigvals_positive str list_ w = (Return tt, w') ->
  instances w' = instances w
  /\ exists added,
       constraints w' = (constraints w ++ added)%list
       /\ Forall2
            (fun (group : parameter_group) (c : Constraint) =>
               c.1 = first_keys (values group)
               /\ length c.1 = length (values group)
               /\ exists central_values covariance,
                    c.2 = MultivariateNormalDistribution central_values covariance
                    /\ length central_values = length c.1)
            list_ added.
Proof.
  unfold _read_yaml_object_values_correlated. revert w.
  induction list_ as [|group rest IH]; intros w H.
  - injection H as <-. split; [reflexivity|]. exists []. rewrite app_nil_r.
    split; [reflexivity | constructor].
  - cbn [for_each] in H. unfold bind in H.
    destruct (read_correlated_group_outcome group w)
      as [[e He] | (cv & cov & Hrun & Hcv & Hk & _)].
    + rewrite He in H. discriminate.
    + rewrite Hrun in H. apply IH in H as (Hi & added & Hc & Hall).
      split; [exact Hi|].
      exists ((first_keys (values group), MultivariateNormalDistribution cv cov) :: added).
      split; [rewrite Hc; simpl; rewrite <- app_assoc; reflexivity|].
      constructor; [|exact Hall]. simpl.
      split; [reflexivity|]. split; [exact Hk|]. exists cv, cov. split; [reflexivity | lia].
Qed.

(** X10: when the correlated reader raises, nothing is rolled back and
    nothing is stored for the group that failed: the final state is the one
    reached by reading the groups before it, on which that group raises
    without changing it. *)
Theorem correlated_reader_failure (list_ : list parameter_group) (e : exn)
    (w w' : World) :
  _read_yaml_object_values_correlated errors_from_string _fix_correlation_matrix
    all_eigvals_positive str list_ w = (Raise e, w') ->
  exists groups_before group groups_after,
    list_ = (groups_before ++ group :: groups_after)%list
    /\ _read_yaml_object_values_correlated errors_from_string
         _fix_correlation_matrix all_eigvals_positive str groups_before w
       = (Return tt, w')
    /\ read_correlated_group errors_from_string _fix_correlation_matrix
         all_eigvals_positive str group w' = (Raise e, w').
Proof.
  unfold _read_yaml_object_values_correlated. intros H.
  apply for_each_raised in H as (done_ & failing & rest & w1 & -> & Hdone & Hfail).
  exists done_, failing, rest.
  assert (w' = w1) as ->.
  { destruct (read_correlated_group_outcome failing w1)
      as [[e1 He] | (cv & cov & Hrun & _)]; congruence. }
  auto.
Qed.

(** X11: an empty dictionary in the values of a group makes the reader
    raise [IndexError] without storing anything for the group, once the
    values before it have been read. *)
Theorem empty_values_entry_raises (group : parameter_group) (w : World)
    (values_before values_after : list (list (string * yaml)))
    (locals : list string * list float * list float) :
  values group = (values_before ++ [] :: values_after)%list ->
  (for_fold values_before (read_correlated_value errors_from_string)
     ([], [], []) w).1 = Return locals ->
  read_correlated_group errors_from_string _fix_correlation_matrix
    all_eigvals_positive str group w = (Raise IndexError, w).
Proof.
  intros Hvalues Hloop. unfold read_correlated_group. unfold bind at 1.
  rewrite Hvalues, for_fold_app, (read_correlated_values_pair _ _ _ _ _ Hloop).
  cbn [for_fold]. unfold bind at 1. destruct locals as [[ns cs] es]. reflexivity.
Qed.

(** X6: the readers keep the store consistent with the registry: if every
    name of every stored constraint is registered before [read_pdg], the
    correlated reader or the metadata reader runs, this still holds in the
    state it leaves, whether it returns or raises. *)
Theorem readers_keep_names_registered (w : World) :
  names_registered w ->
  (forall latex_name_simplified all,
      names_registered (read_pdg latex_name_simplified all w).2)
  /\ (forall list_,
        names_registered
          (_read_yaml_object_values_correlated errors_from_string
             _fix_correlation_matrix all_eigvals_positive str list_ w).2)
  /\ (forall parameters,
        names_registered (_read_yaml_object_metadata parameters w).2).
Proof.
  intros Hw. split; [|split].
  - intros lns all. apply names_registered_read_pdg, Hw.
  - intros list_. unfold _read_yaml_object_values_correlated.
    apply for_each_invariant; [|exact Hw]. clear w Hw. intros group w Hw.
    destruct (read_correlated_group_outcome group w)
      as [[e He] | (cv & cov & Hrun & _ & _ & Hreg)].
    + rewrite He. exact Hw.
    + rewrite Hrun. apply names_registered_append; assumption.
  - intros parameters. unfold _read_yaml_object_metadata.
    apply for_each_invariant; [|exact Hw]. clear w Hw. intros entry w Hw.
    destruct (read_metadata_entry_frame entry w) as (w1 & Hrun & Hc).
    intros c n Hin Hn.
    pose proof (registered_after_metadata_entry entry w n) as Hmono.
    rewrite Hrun in *. simpl in *. rewrite Hc in Hin. apply Hmono.
    apply (Hw c n); assumption.
Qed.

End CorrelatedReaderMore.

(** ** Further properties: errors and matrices *)

Section ErrorsMore.

Context {libc : Libm}.

(** X12: when no square overflows and the accumulated squared error is
    negative (an asymmetric error whose two members have opposite signs),
    the total error raises the domain error of [math.sqrt], and so does the
    loop over the values, without changing the state. *)
Theorem negative_squared_error_raises
    (errors_from_string : yaml -> result error_dict) (d : error_dict) :
  (forall s, In s (symmetric_errors d) ->
             PyFloat.pow2 s = Return (PyFloat.pow2_value s)) ->
  PrimFloat.ltb (sum_floats (squared_error_terms d)) 0%float = true ->
  total_error d = Raise (ValueError "math domain error")
  /\ forall locals parameter_name value rest (w : World),
       is_Some (instances w !! parameter_name) ->
       errors_from_string value = Return d ->
       read_correlated_value errors_from_string locals
         ((parameter_name, value) :: rest) w
       = (Raise (ValueError "math domain error"), w).
Proof.
  intros Hpow Hneg.
  assert (Ht : total_error d = Raise (ValueError "math domain error")).
  { rewrite total_error_sum by assumption. unfold PyFloat.sqrt.
    rewrite Hneg. reflexivity. }
  split; [exact Ht|].
  intros [[ns cs] es] parameter_name value rest w [p Hp] Hd.
  unfold read_correlated_value, bind, Registry.lookup, lift, ret.
  rewrite Hp, Hd, Ht. reflexivity.
Qed.

(** X13: the first symmetric error whose square overflows makes the total
    error raise [OverflowError], whatever errors follow it. *)
Theorem overflowing_symmetric_error_raises (d : error_dict)
    (before after : list float) (s : float) :
  symmetric_errors d = (before ++ s :: after)%list ->
  (forall x, In x before -> PyFloat.pow2 x = Return (PyFloat.pow2_value x)) ->
  PrimFloat.is_finite s && PrimFloat.is_infinity (PyFloat.pow2_value s) = true ->
  total_error d = Raise OverflowError.
Proof.
  intros Hsym Hbefore Hover. unfold total_error.
  replace (add_squares 0%float (symmetric_errors d)) with (@Raise float OverflowError);
    [reflexivity|].
  rewrite Hsym. unfold add_squares. rewrite fold_left_app.
  fold (add_squares 0%float before). rewrite add_squares_sum by exact Hbefore.
  assert (Hs : PyFloat.pow2 s = Raise OverflowError)
    by (unfold PyFloat.pow2; rewrite Hover; reflexivity).
  cbn [fold_left rbind]. rewrite Hs.
  cbn [rbind]. rewrite add_squares_raised. reflexivity.
Qed.

End ErrorsMore.

Lemma map_as_fmap {A B} (f : A -> B) (l : list A) : map f l = f <$> l.
Proof. induction l as [|x l IH]; [reflexivity|]. simpl. rewrite IH. reflexivity. Qed.

(** X14: the entries of the covariance are [errors[i]*errors[j]*M[i][j]]. *)
Theorem covariance_entry (errors : list float) (corr : matrix) (i j : nat)
    (ei ej r : float) (row : list float) :
  errors !! i = Some ei -> errors !! j = Some ej ->
  corr !! i = Some row -> row !! j = Some r ->
  exists row',
    covariance_of errors corr !! i = Some row'
    /\ row' !! j = Some (ei * ej * r)%float.
Proof.
  intros Hi Hj Hrow Hr.
  unfold covariance_of, Np.multiply, Np.zip_matrix, Np.outer, matrix in *.
  eexists. split.
  - rewrite lookup_zip_with, map_as_fmap, list_lookup_fmap, Hi, Hrow. reflexivity.
  - rewrite lookup_zip_with, map_as_fmap, list_lookup_fmap, Hj, Hr. reflexivity.
Qed.

Lemma eye_entry (n i j : nat) :
  i < n -> j < n ->
  exists row,
    Np.eye n !! i = Some row
    /\ row !! j = Some (if Nat.eqb i j then 1%float else 0%float).
Proof.
  intros Hi Hj. unfold Np.eye, matrix.
  eexists. split.
  - rewrite map_as_fmap, list_lookup_fmap, lookup_seq_lt by exact Hi. reflexivity.
  - rewrite map_as_fmap, list_lookup_fmap, lookup_seq_lt by exact Hj. reflexivity.
Qed.

(** X15: one damping pass replaces the entry [M[i][j]] of a square
    correlation matrix by [(M[i][j] - I[i][j])*0.99 + I[i][j]], where
    [I[i][j]] is one on the diagonal and zero elsewhere. *)
Theorem damp_entry (corr : matrix) (i j : nat) (row : list float) (r : float) :
  corr !! i = Some row -> row !! j = Some r -> j < length corr ->
  exists row',
    damp corr !! i = Some row'
    /\ row' !! j
       = Some (let identity := if Nat.eqb i j then 1%float else 0%float in
               (r - identity) * 0.99 + identity)%float.
Proof.
  intros Hrow Hr Hj.
  assert (Hi : i < length corr) by (eapply lookup_lt_Some; exact Hrow).
  destruct (eye_entry (length corr) i j Hi Hj) as (erow & Herow & He).
  unfold damp, Np.add, Np.subtract, Np.scale, Np.zip_matrix, matrix in *.
  eexists. split.
  - rewrite lookup_zip_with, map_as_fmap, list_lookup_fmap, lookup_zip_with,
      Hrow, Herow. reflexivity.
  - rewrite lookup_zip_with, map_as_fmap, list_lookup_fmap, lookup_zip_with,
      Hr, He. reflexivity.
Qed.

(** ** Further properties: the metadata reader *)

Lemma metadata_writes_fold (k : string) parameters :
  metadata_writes k parameters = fold_left (metadata_step k) parameters (None, None).
Proof. reflexivity. Qed.

Lemma apply_metadata_writes_none (p : ParameterMeta) :
  apply_metadata_writes (None, None) p = p.
Proof. destruct p. reflexivity. Qed.

Lemma apply_metadata_writes_twice writes (p : ParameterMeta) :
  apply_metadata_writes writes (apply_metadata_writes writes p)
  = apply_metadata_writes writes p.
Proof. destruct writes as [[d|] [t|]]; reflexivity. Qed.

Lemma apply_metadata_step (k : string) acc entry (p : ParameterMeta) :
  apply_metadata_writes (metadata_step k acc entry) p
  = apply_metadata_writes (metadata_step k (None, None) entry)
      (apply_metadata_writes acc p).
Proof.
  unfold metadata_step. destruct (String.eqb entry.1 k).
  - destruct (entry.2 !! "description") as [[d|]|];
      destruct (entry.2 !! "tex") as [[t|]|]; destruct acc as [[ad|] [at_|]];
      reflexivity.
  - rewrite apply_metadata_writes_none. reflexivity.
Qed.

Lemma apply_metadata_fold (k : string) parameters acc (p : ParameterMeta) :
  apply_metadata_writes (fold_left (metadata_step k) parameters acc) p
  = apply_metadata_writes (fold_left (metadata_step k) parameters (None, None))
      (apply_metadata_writes acc p).
Proof.
  revert acc p. induction parameters as [|entry rest IH]; intros acc p.
  - simpl. rewrite apply_metadata_writes_none. reflexivity.
  - cbn [fold_left]. rewrite IH, (IH (metadata_step k (None, None) entry)).
    rewrite apply_metadata_step. reflexivity.
Qed.

Lemma metadata_writes_absent (k : string) parameters acc :
  in_metadata_file k parameters = false ->
  fold_left (metadata_step k) parameters acc = acc.
Proof.
  revert acc. induction parameters as [|entry rest IH]; intros acc H; [reflexivity|].
  simpl in H. apply orb_false_elim in H as [He Hrest].
  cbn [fold_left]. unfold metadata_step at 2. rewrite He. apply IH, Hrest.
Qed.

Lemma read_metadata_entry_lookup entry (w : World) (k : string) :
  (read_metadata_entry entry w).1 = Return tt
  /\ instances (read_metadata_entry entry w).2 !! k
     = if bool_decide (is_Some (instances w !! k)) || String.eqb entry.1 k
       then Some (apply_metadata_writes (metadata_step k (None, None) entry)
                    (default {| p_description := None; p_tex := None |}
                       (instances w !! k)))
       else None.
Proof.
  unfold read_metadata_entry, bind, Registry.create, Registry.set_description,
    Registry.set_tex, ret, metadata_step.
  destruct (String.eqb_spec entry.1 k) as [<- | Hne].
  - rewrite orb_true_r.
    destruct (instances w !! entry.1) as [[pd pt]|] eqn:E;
      destruct (entry.2 !! "description") as [[d|]|];
      destruct (entry.2 !! "tex") as [[t|]|]; cbn -[lookup];
      rewrite ?lookup_alter, ?lookup_insert, ?decide_True by reflexivity;
      rewrite ?E; (split; reflexivity).
  - rewrite orb_false_r.
    assert (Hk : instances w !! k
                 = if bool_decide (is_Some (instances w !! k))
                   then Some (apply_metadata_writes (None, None)
                                (default {| p_description := None; p_tex := None |}
                                   (instances w !! k)))
                   else None).
    { destruct (instances w !! k) as [p|] eqn:Ek.
      - rewrite bool_decide_eq_true_2 by eauto. simpl.
        rewrite apply_metadata_writes_none. reflexivity.
      - rewrite bool_decide_eq_false_2; [reflexivity|]. intros [x Hx]. discriminate. }
    rewrite <- Hk.
    destruct (instances w !! entry.1) eqn:E;
      destruct (entry.2 !! "description") as [[d|]|];
      destruct (entry.2 !! "tex") as [[t|]|]; cbn -[lookup];
      rewrite ?lookup_alter, ?lookup_insert, ?decide_False by exact Hne;
      (split; reflexivity).
Qed.

Lemma read_metadata_lookup parameters (w : World) (k : string) :
  instances (_read_yaml_object_metadata parameters w).2 !! k
  = if bool_decide (is_Some (instances w !! k)) || in_metadata_file k parameters
    then Some (apply_metadata_writes (metadata_writes k parameters)
                 (default {| p_description := None; p_tex := None |}
                    (instances w !! k)))
    else None.
Proof.
  unfold _read_yaml_object_metadata. rewrite metadata_writes_fold. revert w.
  induction parameters as [|entry rest IH]; intros w.
  - simpl. rewrite orb_false_r.
    destruct (instances w !! k) as [p|] eqn:Ek.
    + rewrite bool_decide_eq_true_2 by eauto. simpl.
      rewrite apply_metadata_writes_none. reflexivity.
    + rewrite bool_decide_eq_false_2; [reflexivity|]. intros [x Hx]. discriminate.
  - cbn [for_each]. unfold bind.
    destruct (read_metadata_entry_lookup entry w k) as [Hret Hlook].
    destruct (read_metadata_entry entry w) as [r w1]. simpl in Hret, Hlook.
    subst r. rewrite IH, Hlook. cbn [fold_left in_metadata_file existsb].
    fold (in_metadata_file k rest).
    destruct (bool_decide (is_Some (instances w !! k)) || String.eqb entry.1 k) eqn:Hb.
    + rewrite bool_decide_eq_true_2 by eauto. simpl.
      rewrite (apply_metadata_fold k rest (metadata_step k (None, None) entry)).
      destruct (bool_decide (is_Some (instances w !! k))); [reflexivity|].
      simpl in Hb. rewrite Hb. reflexivity.
    + apply orb_false_elim in Hb as [Hreg He]. rewrite Hreg, He.
      rewrite bool_decide_eq_false_2 by (intros [x Hx]; discriminate). simpl.
      assert (Hs : metadata_step k (None, None) entry = (None, None))
        by (unfold metadata_step; rewrite He; reflexivity).
      rewrite Hs.
      destruct (instances w !! k) eqn:Ek; [|reflexivity].
      rewrite bool_decide_eq_true_2 in Hreg by eauto. discriminate.
Qed.

(** X16: after the metadata reader has run, a parameter is registered
    exactly when it was registered before or has an entry in the file; its
    description is the last description the file gives for it that is not
    [None], or else the one it had, and likewise for its label.  A
    parameter without an entry keeps its attributes. *)
Theorem metadata_reader_last_write
    (parameters : list (string * gmap string (option string)))
    (w : World) (parameter_name : string) :
  let w' := (_read_yaml_object_metadata parameters w).2 in
  (is_Some (instances w' !! parameter_name)
   <-> is_Some (instances w !! parameter_name)
       \/ in_metadata_file parameter_name parameters = true)
  /\ (forall p,
        instances w' !! parameter_name = Some p ->
        p_description p
        = match (metadata_writes parameter_name parameters).1 with
          | Some description => Some description
          | None => instances w !! parameter_name ≫= p_description
          end
        /\ p_tex p
           = match (metadata_writes parameter_name parameters).2 with
             | Some tex => Some tex
             | None => instances w !! parameter_name ≫= p_tex
             end)
  /\ (in_metadata_file parameter_name parameters = false ->
      instances w' !! parameter_name = instances w !! parameter_name).
Proof.
  cbv zeta. rewrite read_metadata_lookup.
  destruct (instances w !! parameter_name) as [p0|] eqn:E.
  - rewrite bool_decide_eq_true_2 by eauto. simpl.
    split; [split; eauto|]. split.
    + intros p [= <-]. unfold apply_metadata_writes. simpl.
      destruct (metadata_writes parameter_name parameters) as [[d|] [t|]];
        split; reflexivity.
    + intros Habs. rewrite metadata_writes_fold, metadata_writes_absent by exact Habs.
      rewrite apply_metadata_writes_none. reflexivity.
  - rewrite bool_decide_eq_false_2 by (intros [x Hx]; discriminate). simpl.
    destruct (in_metadata_file parameter_name parameters) eqn:Hin.
    + split; [split; eauto|]. split; [|discriminate].
      intros p [= <-]. unfold apply_metadata_writes. simpl.
      destruct (metadata_writes parameter_name parameters) as [[d|] [t|]];
        split; reflexivity.
    + split.
      { split; [intros [x Hx]; discriminate | intros [[x Hx] | Hx]; discriminate]. }
      split; [discriminate | reflexivity].
Qed.

Lemma read_metadata_returns
    (parameters : list (string * gmap string (option string))) (w : World) :
  exists w',
    _read_yaml_object_metadata parameters w = (Return tt, w')
    /\ constraints w' = constraints w.
Proof.
  unfold _read_yaml_object_metadata. revert w.
  induction parameters as [|entry rest IH]; intros w; [eexists; split; reflexivity|].
  destruct (read_metadata_entry_frame entry w) as (wa & Hrun & Hc).
  destruct (IH wa) as (wb & Hrest & Hcb).
  exists wb. cbn [for_each]. unfold bind. rewrite Hrun.
  split; [exact Hrest | congruence].
Qed.

(** X17: reading the same metadata file again changes nothing: the second
    run returns in the state the first run left. *)
Theorem metadata_reader_idempotent
    (parameters : list (string * gmap string (option string))) (w : World) :
  let w' := (_read_yaml_object_metadata parameters w).2 in
  _read_yaml_object_metadata parameters w' = (Return tt, w').
Proof.
  cbv zeta.
  destruct (_read_yaml_object_metadata parameters w) as [r1 w1] eqn:E1.
  simpl. destruct (read_metadata_returns parameters w1) as (w2 & Hrun2 & Hc2).
  rewrite Hrun2. f_equal.
  assert (Hi : instances w2 = instances w1).
  { apply map_eq. intros k.
    pose proof (read_metadata_lookup parameters w1 k) as H2.
    pose proof (read_metadata_lookup parameters w k) as H1.
    rewrite Hrun2 in H2. rewrite E1 in H1. simpl in H1, H2.
    rewrite H2, H1.
    destruct (bool_decide (is_Some (instances w !! k))
              || in_metadata_file k parameters) eqn:Hb.
    - rewrite bool_decide_eq_true_2 by eauto. simpl.
      rewrite apply_metadata_writes_twice. reflexivity.
    - apply orb_false_elim in Hb as [_ Hin]. rewrite Hin.
      rewrite bool_decide_eq_false_2 by (intros [x Hx]; discriminate).
      reflexivity. }
  destruct w1 as [i1 c1], w2 as [i2 c2]. simpl in *. congruence.
Qed.

(** ** Further properties: the simplified LaTeX name *)

Lemma append_cons (c : Ascii.ascii) (a b : string) :
  String c a +:+ b = String c (a +:+ b).
Proof. reflexivity. Qed.

Lemma append_nil (b : string) : "" +:+ b = b.
Proof. reflexivity. Qed.

Lemma append_empty (s : string) : s +:+ "" = s.
Proof.
  induction s as [|c s IH]; [reflexivity|].
  rewrite append_cons, IH. reflexivity.
Qed.

Lemma append_assoc (a b c : string) : (a +:+ b) +:+ c = a +:+ (b +:+ c).
Proof.
  induction a as [|x a IH]; [reflexivity|].
  rewrite !append_cons, IH. reflexivity.
Qed.

Lemma strip_prefix_length (prefix s s1 : string) :
  FlavioParticle.strip_prefix prefix s = Some s1 ->
  String.length s1 <= String.length s.
Proof.
  revert s. induction prefix as [|a prefix IH]; intros s H.
  - injection H as <-. reflexivity.
  - destruct s as [|b s]; [discriminate|]. cbn in H.
    destruct (Ascii.eqb a b); [|discriminate]. apply IH in H. cbn. lia.
Qed.

Lemma lazy_until_length (close : Ascii.ascii) (s captured rest : string) :
  FlavioParticle.lazy_until close s = Some (captured, rest) ->
  String.length rest < String.length s.
Proof.
  revert captured. induction s as [|c s IH]; intros captured H; [discriminate|].
  cbn in H. destruct (Ascii.eqb c close).
  - injection H as <- <-. cbn. lia.
  - destruct (Ascii.eqb c "010"); [discriminate|].
    destruct (FlavioParticle.lazy_until close s) as [[a b]|] eqn:E; [|discriminate].
    injection H as <- <-. specialize (IH _ eq_refl). cbn. lia.
Qed.

(** The bound on the repetitions is never reached: any fuel of at least
    the length of the text gives the same groups. *)
Lemma repeat_group_fuel (n m : nat) (opening : string) (close : Ascii.ascii)
    (last : option string) (s : string) :
  String.length s <= n -> String.length s <= m ->
  FlavioParticle.repeat_group n opening close last s
  = FlavioParticle.repeat_group m opening close last s.
Proof.
  revert m last s. induction n as [|n IH]; intros m last s Hn Hm.
  - destruct s; [|cbn in Hn; lia].
    destruct m; cbn; [reflexivity|].
    destruct (FlavioParticle.strip_prefix opening "") as [s1|] eqn:E; [|reflexivity].
    apply strip_prefix_length in E. destruct s1; [reflexivity | cbn in E; lia].
  - destruct m as [|m].
    + destruct s; [|cbn in Hm; lia]. cbn.
      destruct (FlavioParticle.strip_prefix opening "") as [s1|] eqn:E; [|reflexivity].
      apply strip_prefix_length in E. destruct s1; [reflexivity | cbn in E; lia].
    + cbn.
      destruct (FlavioParticle.strip_prefix opening s) as [s1|] eqn:E; [|reflexivity].
      destruct (FlavioParticle.lazy_until close s1) as [[cap s2]|] eqn:E2;
        [|reflexivity].
      apply strip_prefix_length in E. apply lazy_until_length in E2.
      apply IH; lia.
Qed.

Lemma repeat_group_stops (n : nat) (opening : string) (close : Ascii.ascii)
    (last : option string) (s : string) :
  FlavioParticle.strip_prefix opening s = None ->
  FlavioParticle.repeat_group n opening close last s = (last, s).
Proof. intros H. destruct n; cbn; [reflexivity|]. rewrite H. reflexivity. Qed.

Lemma repeat_group_once (n : nat) (opening : string) (close : Ascii.ascii)
    (last : option string) (s s1 captured s2 : string) :
  FlavioParticle.strip_prefix opening s = Some s1 ->
  FlavioParticle.lazy_until close s1 = Some (captured, s2) ->
  FlavioParticle.strip_prefix opening s2 = None ->
  FlavioParticle.repeat_group (S n) opening close last s = (Some captured, s2).
Proof.
  intros H1 H2 H3. cbn. rewrite H1, H2. apply repeat_group_stops, H3.
Qed.

Lemma lazy_until_plain (close : Ascii.ascii) (text rest : string) :
  plain_text close text = true ->
  FlavioParticle.lazy_until close (text +:+ String close rest) = Some (text, rest).
Proof.
  induction text as [|c text IH]; intros H.
  - rewrite append_nil. cbn. rewrite Ascii.eqb_refl. reflexivity.
  - cbn in H. apply andb_prop in H as [H Hrest]. apply andb_prop in H as [Hc Hn].
    apply negb_true_iff in Hc, Hn. rewrite append_cons. cbn.
    rewrite Hc, Hn, (IH Hrest). reflexivity.
Qed.

Lemma name_run_app (name rest : string) :
  all_in_name_class name = true ->
  match rest with
  | EmptyString => True
  | String c _ => FlavioParticle.in_name_class c = false
  end ->
  FlavioParticle.name_run (name +:+ rest) = (name, rest).
Proof.
  intros Hname Hrest. induction name as [|c name IH].
  - rewrite append_nil. destruct rest as [|c rest]; [reflexivity|].
    cbn. rewrite Hrest. reflexivity.
  - cbn in Hname. apply andb_prop in Hname as [Hc Hname].
    rewrite append_cons. cbn. rewrite Hc, (IH Hname). reflexivity.
Qed.

Lemma contains_star_append_empty (s : string) :
  FlavioParticle.contains_star (s +:+ "") = FlavioParticle.contains_star s.
Proof. rewrite append_empty. reflexivity. Qed.

(** X18: a LaTeX name made only of letters, backslashes and slashes, and
    a LaTeX name that does not start with one, are returned unchanged. *)
Theorem latex_name_simplified_plain (latex_name : string) :
  all_in_name_class latex_name = true
  \/ match latex_name with
     | EmptyString => True
     | String c _ => FlavioParticle.in_name_class c = false
     end ->
  FlavioParticle.latex_name_simplified latex_name = latex_name.
Proof.
  intros [Hall | Hfirst].
  - unfold FlavioParticle.latex_name_simplified, FlavioParticle.pdg_tex_match.
    pose proof (name_run_app latex_name "" Hall I) as Hrun.
    rewrite append_empty in Hrun. rewrite Hrun.
    destruct latex_name as [|c s]; [reflexivity|].
    rewrite !repeat_group_stops by reflexivity.
    cbn [FlavioParticle.truthy FlavioParticle.or_empty orb andb negb].
    rewrite !append_nil. cbn [FlavioParticle.contains_star].
    destruct (bool_decide _); cbn [FlavioParticle.truthy];
      rewrite !append_empty; reflexivity.
  - unfold FlavioParticle.latex_name_simplified, FlavioParticle.pdg_tex_match.
    destruct latex_name as [|c s]; [reflexivity|].
    cbn [FlavioParticle.name_run]. rewrite Hfirst. reflexivity.
Qed.

Lemma length_name_app (name rest : string) :
  name <> "" -> exists n, String.length (name +:+ rest) = S n.
Proof. destruct name as [|c name]; [congruence|]. intros _. rewrite append_cons. cbn. eauto. Qed.

(** The groups of a name followed by one superscript. *)
Lemma pdg_tex_match_superscript (name c : string) :
  name <> "" -> all_in_name_class name = true -> plain_text "}" c = true ->
  FlavioParticle.pdg_tex_match (name +:+ "^{" +:+ c +:+ "}")
  = Some (name, None, Some c, None, None).
Proof.
  intros Hne Hname Hc. unfold FlavioParticle.pdg_tex_match.
  rewrite name_run_app by (exact Hname || reflexivity).
  destruct (length_name_app name ("^{" +:+ c +:+ "}") Hne) as [n ->].
  destruct name as [|a name]; [congruence|].
  rewrite (repeat_group_stops _ "_{") by reflexivity.
  rewrite (repeat_group_once n "^{" "}" None _ (c +:+ "}") c "")
    by (reflexivity || apply lazy_until_plain, Hc).
  rewrite !repeat_group_stops by reflexivity. reflexivity.
Qed.

(** The groups of a name followed by a subscript and a superscript. *)
Lemma pdg_tex_match_subscript (name sub c : string) :
  name <> "" -> all_in_name_class name = true ->
  plain_text "}" sub = true -> plain_text "}" c = true ->
  FlavioParticle.pdg_tex_match (name +:+ "_{" +:+ sub +:+ "}^{" +:+ c +:+ "}")
  = Some (name, Some sub, Some c, None, None).
Proof.
  intros Hne Hname Hsub Hc. unfold FlavioParticle.pdg_tex_match.
  rewrite name_run_app by (exact Hname || reflexivity).
  destruct (length_name_app name ("_{" +:+ sub +:+ "}^{" +:+ c +:+ "}") Hne) as [n ->].
  destruct name as [|a name]; [congruence|].
  rewrite (repeat_group_once n "_{" "}" None _ (sub +:+ "}^{" +:+ c +:+ "}")
             sub ("^{" +:+ c +:+ "}"))
    by (reflexivity || apply (lazy_until_plain "}" sub ("^{" +:+ c +:+ "}")), Hsub).
  rewrite (repeat_group_once n "^{" "}" None _ (c +:+ "}") c "")
    by (reflexivity || apply lazy_until_plain, Hc).
  rewrite !repeat_group_stops by reflexivity. reflexivity.
Qed.

(** The groups of a name followed by a text in parentheses. *)
Lemma pdg_tex_match_parentheses (name par : string) :
  name <> "" -> all_in_name_class name = true -> plain_text ")" par = true ->
  FlavioParticle.pdg_tex_match (name +:+ "(" +:+ par +:+ ")")
  = Some (name, None, None, Some par, None).
Proof.
  intros Hne Hname Hpar. unfold FlavioParticle.pdg_tex_match.
  rewrite name_run_app by (exact Hname || reflexivity).
  destruct (length_name_app name ("(" +:+ par +:+ ")") Hne) as [n ->].
  destruct name as [|a name]; [congruence|].
  rewrite (repeat_group_stops _ "_{") by reflexivity.
  rewrite (repeat_group_stops _ "^{") by reflexivity.
  rewrite (repeat_group_once n "(" ")" None _ (par +:+ ")") par "")
    by (reflexivity || apply lazy_until_plain, Hpar).
  rewrite !repeat_group_stops by reflexivity. reflexivity.
Qed.

(** X19: a name followed by one superscript keeps it, except that for W,
    Z, H, e, mu and tau only a star is kept, so that their charge is
    dropped. *)
Theorem latex_name_simplified_superscript (name c : string) :
  name <> "" -> all_in_name_class name = true -> plain_text "}" c = true ->
  FlavioParticle.latex_name_simplified (name +:+ "^{" +:+ c +:+ "}")
  = if charge_dropped name
    then name +:+ (if FlavioParticle.contains_star c then "^{*}" else "")
    else name +:+ (match c with
                   | EmptyString => ""
                   | String _ _ => "^{" +:+ c +:+ "}"
                   end).
Proof.
  intros Hne Hname Hc. unfold FlavioParticle.latex_name_simplified.
  rewrite pdg_tex_match_superscript by assumption.
  cbn [FlavioParticle.truthy FlavioParticle.or_empty orb andb negb].
  fold (charge_dropped name). rewrite append_empty, append_nil.
  destruct (charge_dropped name).
  - destruct (FlavioParticle.contains_star c); reflexivity.
  - destruct c; [rewrite append_empty|]; reflexivity.
Qed.

(** X20: a name with a subscript keeps the subscript and, of its
    superscript, only a star: [B_{s}^{0}] becomes [B_{s}] and
    [D_{s}^{*+}] becomes [D_{s}^{*}]. *)
Theorem latex_name_simplified_subscript (name sub c : string) :
  name <> "" -> all_in_name_class name = true ->
  sub <> "" -> plain_text "}" sub = true -> plain_text "}" c = true ->
  FlavioParticle.latex_name_simplified
    (name +:+ "_{" +:+ sub +:+ "}^{" +:+ c +:+ "}")
  = name +:+ "_{" +:+ sub +:+ "}"
    +:+ (if FlavioParticle.contains_star c then "^{*}" else "").
Proof.
  intros Hne Hname Hsne Hsub Hc. unfold FlavioParticle.latex_name_simplified.
  rewrite pdg_tex_match_subscript by assumption.
  destruct sub as [|s0 sub]; [congruence|].
  cbn [FlavioParticle.truthy FlavioParticle.or_empty orb andb negb].
  rewrite append_empty.
  destruct (FlavioParticle.contains_star c); cbn [FlavioParticle.truthy];
    rewrite ?append_assoc, ?append_empty; reflexivity.
Qed.

(** X21: a name followed by an ASCII text in parentheses loses it when the
    text is a number (a mass) or empty, or when the name is J/psi;
    otherwise the text becomes the subscript: [\rho(770)] becomes [\rho]
    and [\psi(2S)] becomes [\psi_{2S}]. *)
Theorem latex_name_simplified_parentheses (name par : string) :
  name <> "" -> all_in_name_class name = true ->
  all_ascii par = true -> plain_text ")" par = true ->
  FlavioParticle.latex_name_simplified (name +:+ "(" +:+ par +:+ ")")
  = if FlavioParticle.truthy (Some par) && negb (FlavioParticle.isdigit par)
       && negb (String.eqb name "J/\psi")
    then name +:+ "_{" +:+ par +:+ "}"
    else name.
Proof.
  intros Hne Hname _ Hpar. unfold FlavioParticle.latex_name_simplified.
  rewrite pdg_tex_match_parentheses by assumption.
  cbn [FlavioParticle.or_empty FlavioParticle.truthy orb andb negb].
  rewrite append_nil. cbn [FlavioParticle.contains_star].
  replace (if bool_decide (name ∈ ["W"; "Z"; "H"; "e"; "\mu"; "\tau"])
           then "" else "") with "" by (destruct (bool_decide _); reflexivity).
  destruct par as [|p0 par].
  - cbn. rewrite !append_empty. reflexivity.
  - cbn [andb negb FlavioParticle.truthy].
    destruct (negb (FlavioParticle.isdigit (String p0 par))
              && negb (String.eqb name "J/\psi"));
      cbn [FlavioParticle.truthy FlavioParticle.or_empty];
      rewrite ?append_empty; reflexivity.
Qed.

(** ** Further properties: the values reader *)

(** X22: when the values reader raises, the entries after the failing one
    play no part: the entries before it have been handed to
    [set_constraint], the failing entry raised in the state they left, and
    any other continuation of the file gives the same exception and the
    same state. *)
Theorem values_reader_stops_at_failure
    (set_constraint : string -> yaml -> M unit)
    (parameters : list (string * yaml)) (e : exn) (w w' : World) :
  _read_yaml_object_values set_constraint parameters w = (Raise e, w') ->
  exists before entry after w1,
    parameters = (before ++ entry :: after)%list
    /\ _read_yaml_object_values set_constraint before w = (Return tt, w1)
    /\ read_values_entry set_constraint entry w1 = (Raise e, w')
    /\ forall after',
         _read_yaml_object_values set_constraint (before ++ entry :: after') w
         = (Raise e, w').
Proof.
  unfold _read_yaml_object_values. intros H.
  apply for_each_raised in H as (before & entry & after & w1 & -> & Hbefore & Hfail).
  exists before, entry, after, w1. repeat split; try assumption.
  intros after'. rewrite for_each_app, Hbefore. cbn [for_each]. unfold bind.
  rewrite Hfail. reflexivity.
Qed.

(** ** The further properties on concrete data *)

Import MoreExamples.

Section FurtherStatements.

#[local] Existing Instance libm.

Example latex_names_simplified :
  map FlavioParticle.latex_name_simplified
    ["B^{0}"; "B_{s}^{0}"; "K^{*}(892)^{0}"; "\psi(2S)"; "J/\psi(1S)"; "W^{+}";
     "\tau^{-}"; "f_{0}(980)"; "D_{s}^{*+}"; "\rho(770)^{+}"; "(x)"; "X_{a"]
  = ["B^{0}"; "B_{s}"; "K^{*0}"; "\psi_{2S}"; "J/\psi"; "W";
     "\tau"; "f_{0}"; "D_{s}^{*}"; "\rho^{+}"; "(x)"; "X"].
Proof. vm_compute. reflexivity. Qed.

Lemma from_flavio_name_round_trip_witness :
  exists p,
    FlavioParticle.from_flavio_name from_pdgid "B0" = Return p
    /\ flavio_name p = Some "B0".
Proof.
  eexists. split; [vm_compute; reflexivity|].
  refine (proj1 (from_flavio_name_round_trip from_pdgid _) "B0" _ _).
  - intros id p [= <-]. reflexivity.
  - vm_compute. reflexivity.
Defined.

Lemma derived_names_distinct_witness :
  NoDup ["m_B0"; "tau_B0"; "m_Bs"; "tau_Bs"].
Proof.
  refine (proj2 (derived_names_distinct B0 Bs_symmetric "B0" "Bs" _ _ _)).
  - vm_compute. reflexivity.
  - vm_compute. reflexivity.
  - vm_compute. discriminate.
Defined.


Lemma read_pdg_frame_witness :
  In (["a"; "b"],
      MultivariateNormalDistribution [1%float; 2%float]
        [[1%float; 0%float]; [0%float; 1%float]])
    (constraints (read_pdg latex_name [B0] correlated_world).2).
Proof.
  assert (H1 : read_pdg latex_name [B0] correlated_world
               = (Return tt, (read_pdg latex_name [B0] correlated_world).2))
    by (vm_compute; reflexivity).
  destruct (read_pdg_frame latex_name [B0] correlated_world _ H1) as (_ & Htwo & _).
  apply (Htwo _ "a" "b").
  - left. reflexivity.
  - discriminate.
  - left. reflexivity.
  - right. left. reflexivity.
Defined.

Lemma read_pdg_registers_metadata_witness :
  exists p,
    instances (read_pdg latex_name [B0] empty_world).2 !! "m_B0" = Some p
    /\ is_Some (p_description p) /\ is_Some (p_tex p).
Proof.
  assert (H1 : read_pdg latex_name [B0] empty_world
               = (Return tt, (read_pdg latex_name [B0] empty_world).2))
    by (vm_compute; reflexivity).
  assert (Hin : In B0 (flavio_all [B0])) by (vm_compute; auto).
  exact (proj1 (read_pdg_registers_metadata latex_name [B0] empty_world _ H1
                  B0 "B0" Hin eq_refl)).
Defined.

Lemma readers_keep_names_registered_witness :
  names_registered (read_pdg latex_name [B0] correlated_world).2.
Proof.
  refine (proj1 (readers_keep_names_registered errors_from_string
                   _fix_correlation_matrix all_eigvals_positive str
                   correlated_world _) latex_name [B0]).
  intros c n [<- | []] [<- | [<- | []]]; vm_compute; eexists; reflexivity.
Defined.

Lemma read_pdg_once_witness :
  ParameterConstraints.count "m_B0" (read_pdg latex_name [B0] correlated_world).2 = 1.
Proof.
  assert (H1 : read_pdg latex_name [B0] correlated_world
               = (Return tt, (read_pdg latex_name [B0] correlated_world).2))
    by (vm_compute; reflexivity).
  assert (Hin : In B0 (flavio_all [B0])) by (vm_compute; auto).
  refine (proj1 (read_pdg_once latex_name [B0] correlated_world _ _ H1
                   B0 "B0" Hin eq_refl)).
  intros c n [<- | []] [<- | [<- | []]]; vm_compute; eexists; reflexivity.
Defined.

Lemma symmetric_width_normal_lifetime_witness :
  exists world',
    read_pdg_particle simplified Bs_symmetric empty_world = (Return tt, world')
    /\ last (constraints world')
       = Some (["tau_Bs"], NormalDistribution 1%float 0.1%float).
Proof.
  refine (symmetric_width_normal_lifetime simplified Bs_symmetric "Bs"
            1000%float 100%float empty_world _ _ _ _ _ _ _ _);
    vm_compute; reflexivity.
Defined.

Lemma correlated_reader_appends_witness :
  exists added,
    constraints
      (_read_yaml_object_values_correlated errors_from_string _fix_correlation_matrix
         all_eigvals_positive str [group 0.5%float; group 1%float]
         correlated_world).2
    = (constraints correlated_world ++ added)%list
    /\ length added = 2.
Proof.
  assert (H1 : _read_yaml_object_values_correlated errors_from_string
                 _fix_correlation_matrix all_eigvals_positive str
                 [group 0.5%float; group 1%float] correlated_world
               = (Return tt,
                  (_read_yaml_object_values_correlated errors_from_string
                     _fix_correlation_matrix all_eigvals_positive str
                     [group 0.5%float; group 1%float] correlated_world).2))
    by (vm_compute; reflexivity).
  destruct (correlated_reader_appends errors_from_string _fix_correlation_matrix
              all_eigvals_positive str _ _ _ H1) as (_ & added & Hc & Hall).
  exists added. split; [exact Hc|].
  symmetry. exact (Forall2_length _ _ _ Hall).
Defined.

Lemma correlated_reader_failure_witness :
  exists groups_before failing groups_after,
    [group 0.5%float; group_unknown; group 1%float]
    = (groups_before ++ failing :: groups_after)%list
    /\ read_correlated_group errors_from_string _fix_correlation_matrix
         all_eigvals_positive str failing
         (_read_yaml_object_values_correlated errors_from_string
            _fix_correlation_matrix all_eigvals_positive str
            [group 0.5%float; group_unknown; group 1%float]
            (registered ["a"; "b"])).2
       = (Raise (KeyError "zz"),
          (_read_yaml_object_values_correlated errors_from_string
             _fix_correlation_matrix all_eigvals_positive str
             [group 0.5%float; group_unknown; group 1%float]
             (registered ["a"; "b"])).2).
Proof.
  assert (H1 : _read_yaml_object_values_correlated errors_from_string
                 _fix_correlation_matrix all_eigvals_positive str
                 [group 0.5%float; group_unknown; group 1%float]
                 (registered ["a"; "b"])
               = (Raise (KeyError "zz"),
                  (_read_yaml_object_values_correlated errors_from_string
                     _fix_correlation_matrix all_eigvals_positive str
                     [group 0.5%float; group_unknown; group 1%float]
                     (registered ["a"; "b"])).2))
    by (vm_compute; reflexivity).
  destruct (correlated_reader_failure errors_from_string _fix_correlation_matrix
              all_eigvals_positive str _ _ _ _ H1)
    as (before & failing & after & Hsplit & _ & Hfail).
  exists before, failing, after. split; assumption.
Defined.

Lemma empty_values_entry_raises_witness :
  read_correlated_group errors_from_string _fix_correlation_matrix
    all_eigvals_positive str group_empty_dict (registered ["a"; "b"])
  = (Raise IndexError, registered ["a"; "b"]).
Proof.
  refine (empty_values_entry_raises errors_from_string _fix_correlation_matrix
            all_eigvals_positive str group_empty_dict (registered ["a"; "b"])
            [[("a", YStr "1.0 +- 0.3 +- 0.4")]] []
            (["a"], [1%float], [0.5%float]) _ _);
    vm_compute; reflexivity.
Defined.

Lemma negative_squared_error_raises_witness :
  total_error negative_errors = Raise (ValueError "math domain error").
Proof.
  refine (proj1 (negative_squared_error_raises errors_from_string negative_errors _ _)).
  - intros s [].
  - vm_compute. reflexivity.
Defined.

Lemma overflowing_symmetric_error_raises_witness :
  total_error overflowing_errors = Raise OverflowError.
Proof.
  refine (overflowing_symmetric_error_raises overflowing_errors
            [0.5%float] [0.1%float] 1e200%float _ _ _).
  - reflexivity.
  - intros x [<- | []]. vm_compute. reflexivity.
  - vm_compute. reflexivity.
Defined.

Lemma covariance_entry_witness :
  exists row',
    covariance_of group_errors (group_correlation 0.5%float) !! 0 = Some row'
    /\ row' !! 1
       = Some (PrimFloat.sqrt (sum_floats (squared_error_terms error_dict_a))
               * PrimFloat.sqrt (sum_floats (squared_error_terms error_dict_b))
               * 0.5)%float.
Proof.
  exact (covariance_entry group_errors (group_correlation 0.5%float) 0 1 _ _ _ _
           eq_refl eq_refl eq_refl eq_refl).
Defined.

Lemma damp_entry_witness :
  exists row',
    damp (group_correlation 0.5%float) !! 0 = Some row'
    /\ row' !! 1 = Some ((0.5 - 0) * 0.99 + 0)%float.
Proof.
  refine (damp_entry (group_correlation 0.5%float) 0 1 _ _ eq_refl eq_refl _).
  simpl. lia.
Defined.

Lemma latex_name_simplified_plain_witness :
  FlavioParticle.latex_name_simplified "\mu" = "\mu".
Proof.
  exact (latex_name_simplified_plain "\mu" (or_introl eq_refl)).
Defined.

Lemma latex_name_simplified_superscript_witness :
  FlavioParticle.latex_name_simplified "W^{+}" = "W".
Proof.
  refine (latex_name_simplified_superscript "W" "+" _ eq_refl eq_refl).
  discriminate.
Defined.

Lemma latex_name_simplified_subscript_witness :
  FlavioParticle.latex_name_simplified "D_{s}^{*+}" = "D_{s}^{*}".
Proof.
  refine (latex_name_simplified_subscript "D" "s" "*+" _ eq_refl _ eq_refl eq_refl);
    discriminate.
Defined.

Lemma latex_name_simplified_parentheses_witness :
  FlavioParticle.latex_name_simplified "\psi(2S)" = "\psi_{2S}".
Proof.
  refine (latex_name_simplified_parentheses "\psi" "2S" _ eq_refl eq_refl eq_refl).
  discriminate.
Defined.

Lemma values_reader_stops_at_failure_witness :
  exists before entry after,
    [("a", YFloat 1%float); ("zz", YFloat 2%float); ("b", YFloat 3%float)]
    = (before ++ entry :: after)%list
    /\ _read_yaml_object_values set_constraint (before ++ [entry])
         (registered ["a"; "b"])
       = (Raise (KeyError "zz"),
          with_constraints (fun _ => [(["a"], NormalDistribution 1%float 1%float)])
            (registered ["a"; "b"])).
Proof.
  assert (H1 : _read_yaml_object_values set_constraint
                 [("a", YFloat 1%float); ("zz", YFloat 2%float); ("b", YFloat 3%float)]
                 (registered ["a"; "b"])
               = (Raise (KeyError "zz"),
                  with_constraints
                    (fun _ => [(["a"], NormalDistribution 1%float 1%float)])
                    (registered ["a"; "b"])))
    by (vm_compute; reflexivity).
  destruct (values_reader_stops_at_failure set_constraint _ _ _ _ H1)
    as (before & entry & after & w1 & Hsplit & _ & _ & Hany).
  exists before, entry, after. split; [exact Hsplit | apply Hany].
Defined.

End FurtherStatements.
